(** * Shallow embedding of the natural-language test runner

    Sources embedded:
    - [server/services/nlpService.js]: [SUPPORTED_ACTIONS], [validateAction],
      [getFallbackAction], [extractQuotedText], [extractUrl],
      [translateCommand], and the Express routes [POST /create] and
      [POST /execute/:sessionId] that follow it in the same file;
    - [server/services/testExecutor.js]: [executeTest], [executeStep] and the
      per-action helpers, [takeScreenshot];
    - [server/database/init.js]: the column defaults of the two tables.

    The browser (Playwright) is an oracle record [page]; every call the
    executor makes on it is logged in a trace.  The SQLite store is a pair of
    row lists; its writes are modelled as always succeeding. *)

From Stdlib Require Import String Ascii List Bool ZArith Arith Lia.
Import ListNotations.
Open Scope string_scope.

(* ------------------------------------------------------------------ *)
(** ** JavaScript values *)

(** JSON-level values as they reach [validateAction] (the result of
    [JSON.parse]).  Numbers are integers here: JSON has no NaN, and the only
    numeric fact the code uses is truthiness ([0] is falsy). *)
Inductive jsval :=
| JUndef
| JNull
| JBool (b : bool)
| JNum (n : Z)
| JStr (s : string)
| JObj.

(** JavaScript truthiness. *)
Definition truthy (v : jsval) : bool :=
  match v with
  | JUndef | JNull => false
  | JBool b => b
  | JNum n => negb (Z.eqb n 0)
  | JStr s => negb (String.eqb s "")
  | JObj => true
  end.

(** [a || b] *)
Definition js_or (a b : jsval) : jsval := if truthy a then a else b.

(** Decimal rendering of an integer, as [String(n)]. *)
Fixpoint digits_of (fuel : nat) (n : nat) (acc : string) : string :=
  match fuel with
  | O => acc
  | S f =>
      let d := String (ascii_of_nat (48 + n mod 10)) acc in
      if Nat.ltb n 10 then d else digits_of f (n / 10) d
  end.

Definition Z_to_string (z : Z) : string :=
  let n := Z.to_nat (Z.abs z) in
  let ds := digits_of (S n) n "" in
  if Z.ltb z 0 then "-" ++ ds else ds.

(** [String(v)], used by template literals and by [String.prototype.includes]
    on a non-string argument. *)
Definition js_to_string (v : jsval) : string :=
  match v with
  | JUndef => "undefined"
  | JNull => "null"
  | JBool true => "true"
  | JBool false => "false"
  | JNum n => Z_to_string n
  | JStr s => s
  | JObj => "[object Object]"
  end.

(** The double-quote character. *)
Definition dq : string := String (ascii_of_nat 34) EmptyString.

(* ------------------------------------------------------------------ *)
(** ** String helpers ([includes], [toLowerCase], [split], [trim]) *)

Fixpoint prefixb (p s : string) : bool :=
  match p, s with
  | EmptyString, _ => true
  | String a p', String b s' => Ascii.eqb a b && prefixb p' s'
  | String _ _, EmptyString => false
  end.

(** [s.includes(sub)] *)
Fixpoint includes (s sub : string) : bool :=
  prefixb sub s ||
  match s with
  | EmptyString => false
  | String _ s' => includes s' sub
  end.

Definition lower_ascii (c : ascii) : ascii :=
  let n := nat_of_ascii c in
  if Nat.leb 65 n && Nat.leb n 90 then ascii_of_nat (n + 32) else c.

(** [s.toLowerCase()] on ASCII text. *)
Fixpoint toLowerCase (s : string) : string :=
  match s with
  | EmptyString => EmptyString
  | String c s' => String (lower_ascii c) (toLowerCase s')
  end.

(** JavaScript white space ([\s], and what [trim] removes) on ASCII:
    tab, line feed, vertical tab, form feed, carriage return, space. *)
Definition is_space (c : ascii) : bool :=
  let n := nat_of_ascii c in
  (Nat.leb 9 n && Nat.leb n 13) || Nat.eqb n 32.

(** [s.split(',')] *)
Fixpoint split_comma (s : string) : list string :=
  match s with
  | EmptyString => [EmptyString]
  | String c s' =>
      match split_comma s' with
      | [] => [String c EmptyString]  (* not reached *)
      | w :: ws =>
          if Ascii.eqb c ","%char then EmptyString :: w :: ws
          else String c w :: ws
      end
  end.

Fixpoint trim_start (s : string) : string :=
  match s with
  | String c s' => if is_space c then trim_start s' else s
  | EmptyString => EmptyString
  end.

Definition rev_string (s : string) : string :=
  string_of_list_ascii (rev (list_ascii_of_string s)).

(** [s.trim()] *)
Definition trim (s : string) : string :=
  rev_string (trim_start (rev_string (trim_start s))).

(* ------------------------------------------------------------------ *)
(** ** nlpService.js: the action schema and [validateAction] *)

Definition SUPPORTED_ACTIONS : list string :=
  ["navigate"; "click"; "type"; "wait"; "verify"; "scroll"; "hover";
   "select"; "upload"; "screenshot"].

(** A candidate action object as parsed from the model's JSON reply. *)
Record raw_action := {
  r_type : jsval;
  r_target : jsval;
  r_value : jsval;
  r_description : jsval;
  r_waitFor : jsval;
  r_timeout : jsval
}.

(** What [JSON.parse] may return: an object, or any other value. *)
Inductive input :=
| IObj (r : raw_action)
| IOther (v : jsval).

(** A normalised action, as [validateAction] and [getFallbackAction] build
    it.  A property the object literal leaves out reads as [JUndef]. *)
Record action := {
  a_type : string;
  a_target : jsval;
  a_value : jsval;
  a_description : jsval;
  a_waitFor : jsval;
  a_timeout : jsval
}.

(** Results of fallible code: a value or a thrown [Error] with its message. *)
Inductive res (A : Type) :=
| Ok (a : A)
| Err (msg : string).
Arguments Ok {A} a.
Arguments Err {A} msg.

Definition validateAction (i : input) : res action :=
  match i with
  | IOther _ => Err "Action must be an object"
  | IObj r =>
      match r_type r with
      | JStr t =>
          if negb (String.eqb t "") && existsb (String.eqb t) SUPPORTED_ACTIONS then
            let v := {| a_type := t;
                        a_target := js_or (r_target r) (JStr "");
                        a_value := js_or (r_value r) (JStr "");
                        a_description :=
                          js_or (r_description r) (JStr ("Execute " ++ t ++ " action"));
                        a_waitFor := js_or (r_waitFor r) JNull;
                        a_timeout := js_or (r_timeout r) (JNum 30000) |} in
            if String.eqb t "navigate" then
              if negb (truthy (a_value v)) && negb (truthy (a_target v))
              then Err "Navigate action requires a URL in value or target field"
              else Ok v
            else if String.eqb t "type" then
              if negb (truthy (a_value v))
              then Err "Type action requires a value to type"
              else Ok v
            else if String.eqb t "verify" then
              if negb (truthy (a_value v)) && negb (truthy (a_target v))
              then Err "Verify action requires something to verify"
              else Ok v
            else Ok v
          else Err ("Invalid action type: " ++ t)
      | v => Err ("Invalid action type: " ++ js_to_string v)
      end
  end.

(* ------------------------------------------------------------------ *)
(** ** nlpService.js: [extractQuotedText], [extractUrl] *)

Definition is_quote (c : ascii) : bool :=
  Ascii.eqb c "'"%char || Ascii.eqb c (ascii_of_nat 34) || Ascii.eqb c "`"%char.

(** Longest prefix of characters satisfying [p], and the rest. *)
Fixpoint span (p : ascii -> bool) (s : string) : string * string :=
  match s with
  | String c s' =>
      if p c then let (w, r) := span p s' in (String c w, r)
      else (EmptyString, s)
  | EmptyString => (EmptyString, EmptyString)
  end.

(** An anchored attempt, at the start of [s], of the regular expression of
    [extractQuotedText]: one quote character (single quote, double quote or
    backquote), a greedy non-empty run of non-quote characters (capture
    group 1), one quote character.  The greedy run takes the maximal run of
    non-quote characters; backtracking to a shorter run cannot help, since the
    character after a shorter run is a non-quote. *)
Definition quoted_at (s : string) : option string :=
  match s with
  | String q s' =>
      if is_quote q then
        let (run, after) := span (fun c => negb (is_quote c)) s' in
        match run, after with
        | String _ _, String q' _ => if is_quote q' then Some run else None
        | _, _ => None
        end
      else None
  | EmptyString => None
  end.

(** [extractQuotedText]: [command.match(re)] with the expression above;
    the leftmost match, capture group 1. *)
Fixpoint extractQuotedText (s : string) : option string :=
  match quoted_at s with
  | Some g => Some g
  | None =>
      match s with
      | String _ s' => extractQuotedText s'
      | EmptyString => None
      end
  end.

(** An anchored attempt of the expression of [extractUrl]: [http], an
    optional [s], a colon and two slashes, then a greedy non-empty run of
    non-space characters. *)
Definition url_at (s : string) : option string :=
  let try_scheme (sch : string) :=
    if prefixb sch s then
      let rest := substring (String.length sch) (String.length s) s in
      match span (fun c => negb (is_space c)) rest with
      | (String c w, _) => Some (sch ++ String c w)
      | _ => None
      end
    else None in
  match try_scheme "https://" with
  | Some u => Some u
  | None => try_scheme "http://"
  end.

(** [command.match(/(https?:\/\/[^\s]+)/)]: leftmost match, group 1. *)
Fixpoint extractUrl (s : string) : option string :=
  match url_at s with
  | Some u => Some u
  | None =>
      match s with
      | String _ s' => extractUrl s'
      | EmptyString => None
      end
  end.

(* ------------------------------------------------------------------ *)
(** ** nlpService.js: [getFallbackAction] and [translateCommand] *)

Definition getFallbackAction (command : string) : option action :=
  let lowerCommand := toLowerCase command in
  let navigate_rule :=
    if includes lowerCommand "navigate" || includes lowerCommand "go to" then
      match extractUrl command with
      | Some url =>
          Some {| a_type := "navigate"; a_target := JStr url; a_value := JStr url;
                  a_description := JStr ("Navigate to " ++ url);
                  a_waitFor := JUndef; a_timeout := JNum 30000 |}
      | None => None
      end
    else None in
  if includes lowerCommand "click" then
    let buttonText :=
      match extractQuotedText command with Some t => t | None => "button" end in
    Some {| a_type := "click";
            a_target := JStr ("button:has-text('" ++ buttonText ++
                              "'), [data-testid*='" ++ toLowerCase buttonText ++ "']");
            a_value := JUndef;
            a_description := JStr ("Click " ++ buttonText);
            a_waitFor := JUndef; a_timeout := JNum 30000 |}
  else if includes lowerCommand "type" || includes lowerCommand "enter" then
    match extractQuotedText command with
    | Some text =>
        Some {| a_type := "type"; a_target := JStr "input, textarea";
                a_value := JStr text;
                a_description := JStr ("Type " ++ dq ++ text ++ dq);
                a_waitFor := JUndef; a_timeout := JNum 30000 |}
    | None => navigate_rule
    end
  else navigate_rule.

(** The language capability's answer to one request: an error (network,
    API, or a reply that is not JSON: "Invalid response format from AI
    model"), or the parsed JSON reply. *)
Inductive llm_response :=
| LLMFail (msg : string)
| LLMReply (v : input).

Definition translateCommand (command : string) (llm : llm_response) : res action :=
  let fallback (msg : string) :=
    match getFallbackAction command with
    | Some a => Ok a
    | None => Err ("Failed to translate command: " ++ msg)
    end in
  match llm with
  | LLMFail msg => fallback msg
  | LLMReply v =>
      match validateAction v with
      | Ok a => Ok a
      | Err msg => fallback msg
      end
  end.

(* ------------------------------------------------------------------ *)
(** ** The SQLite store ([database/init.js]) *)

(** A row of [test_sessions].  [status] defaults to ['pending']. *)
Record session_row := {
  ss_id : string;
  ss_name : string;
  ss_status : string;
  ss_total : nat;
  ss_passed : nat;
  ss_failed : nat
}.

(** A row of [test_steps].  [translated_action] holds
    [JSON.stringify(translatedAction)]; the embedding keeps the action itself,
    which [JSON.parse] gives back.  [status] defaults to ['pending']. *)
Record step_row := {
  sp_id : string;
  sp_session : string;
  sp_number : nat;
  sp_command : string;
  sp_action : action;
  sp_status : string;
  sp_actual : option string;
  sp_error : option string;
  sp_screenshot : option string
}.

Record store := {
  sessions : list session_row;
  steps : list step_row
}.

(* ------------------------------------------------------------------ *)
(** ** The browser page (Playwright) as an oracle *)

(** The answers the page gives to the executor's calls; [true] means the
    call resolves, [false] that it rejects (timeout, not found, ...). *)
Record page := {
  pg_goto : string -> bool;
  pg_waitForSelector : string -> bool;
  pg_click : string -> bool;
  pg_fill : string -> bool;
  pg_title : string;
  pg_isVisible : string -> bool;
  pg_textContent : string -> string;
  pg_scrollIntoView : string -> bool;
  pg_hover : string -> bool;
  pg_selectOption : string -> bool;
  pg_screenshot : bool
}.

(** Calls made on the page, in order. *)
Inductive event :=
| EGoto (url : string) (timeout : jsval)
| EWaitForSelector (sel : string) (timeout : jsval)
| EClick (sel : string) (timeout : jsval)
| EFill (sel : string) (value : jsval)
| EWaitForTimeout (ms : Z)
| ETitle
| EIsVisible (sel : string)
| ETextContent (sel : string)
| EScrollTo (where_ : string)
| EScrollIntoView (sel : string)
| EHover (sel : string) (timeout : jsval)
| ESelectOption (sel : string) (value : jsval)
| EScreenshot (file : string).

Record state := {
  st_store : store;
  st_trace : list event
}.

(* ------------------------------------------------------------------ *)
(** ** A state and exception monad for the async code *)

Definition M (A : Type) : Type := state -> res A * state.

Definition ret {A} (a : A) : M A := fun s => (Ok a, s).

Definition bind {A B} (m : M A) (f : A -> M B) : M B :=
  fun s => match m s with
           | (Ok a, s') => f a s'
           | (Err e, s') => (Err e, s')
           end.

Definition throw {A} (msg : string) : M A := fun s => (Err msg, s).

(** [try { m } catch (e) { h(e.message) }] *)
Definition catch_ {A} (m : M A) (h : string -> M A) : M A :=
  fun s => match m s with
           | (Ok a, s') => (Ok a, s')
           | (Err e, s') => h e s'
           end.

Notation "x <- m ;; k" := (bind m (fun x => k))
  (at level 61, m at next level, right associativity).
Notation "m ;;; k" := (bind m (fun _ => k))
  (at level 61, right associativity).

Definition log (e : event) : M unit :=
  fun s => (Ok tt, {| st_store := st_store s; st_trace := st_trace s ++ [e] |}).

Definition modify_store (f : store -> store) : M unit :=
  fun s => (Ok tt, {| st_store := f (st_store s); st_trace := st_trace s |}).

Definition get_store : M store := fun s => (Ok (st_store s), s).

(** A page call: logged, then resolves or rejects. *)
Definition call (e : event) (ok : bool) (err : string) : M unit :=
  log e ;;; if ok then ret tt else throw err.

(** Playwright rejects a selector or URL argument that is not a string. *)
Definition as_string (what : string) (v : jsval) : M string :=
  match v with
  | JStr s => ret s
  | _ => throw (what ++ ": expected string")
  end.

(* ------------------------------------------------------------------ *)
(** ** testExecutor.js *)

Section Executor.

Variable pg : page.

Definition executeNavigate (a : action) : M unit :=
  url <- as_string "url" (js_or (a_value a) (a_target a)) ;;
  call (EGoto url (a_timeout a)) (pg_goto pg url) ("page.goto: Timeout exceeded navigating to " ++ url).

Definition waitForSelector (sel : string) (timeout : jsval) : M unit :=
  call (EWaitForSelector sel timeout) (pg_waitForSelector pg sel)
       ("page.waitForSelector: Timeout exceeded waiting for " ++ sel).

(** The [for (const selector of selectors) { try { ... return; } catch {} }]
    loop of [executeClick] and [executeType]: [true] when some candidate
    returned. *)
Fixpoint try_selectors (act : string -> M unit) (sels : list string) : M bool :=
  match sels with
  | [] => ret false
  | sel :: rest =>
      catch_ (waitForSelector sel (JNum 5000) ;;; act sel ;;; ret true)
             (fun _ => try_selectors act rest)
  end.

(** [action.target.split(',').map(s => s.trim())]; [split] is not a function
    on a non-string target. *)
Definition candidates_of (t : string) : list string := map trim (split_comma t).

Definition candidates (a : action) : M (list string) :=
  match a_target a with
  | JStr t => ret (candidates_of t)
  | _ => throw "action.target.split is not a function"
  end.

Definition executeClick (a : action) : M unit :=
  sels <- candidates a ;;
  found <- try_selectors
             (fun sel => call (EClick sel (a_timeout a)) (pg_click pg sel)
                              ("page.click: Timeout exceeded on " ++ sel)) sels ;;
  if found then ret tt
  else throw ("Could not find clickable element with any of the selectors: "
              ++ js_to_string (a_target a)).

Definition executeType (a : action) : M unit :=
  sels <- candidates a ;;
  found <- try_selectors
             (fun sel => call (EFill sel (a_value a)) (pg_fill pg sel)
                              ("page.fill: Timeout exceeded on " ++ sel)) sels ;;
  if found then ret tt
  else throw ("Could not find input element with any of the selectors: "
              ++ js_to_string (a_target a)).

(** The decimal digits read by [parseInt] from the start of [s]: their
    value, or [None] ([NaN]) when there is none. *)
Fixpoint digits_value (s : string) (acc : Z) (seen : bool) : option Z :=
  match s with
  | String c s' =>
      let n := nat_of_ascii c in
      if Nat.leb 48 n && Nat.leb n 57
      then digits_value s' (acc * 10 + Z.of_nat (n - 48))%Z true
      else if seen then Some acc else None
  | EmptyString => if seen then Some acc else None
  end.

(** Value of a hexadecimal digit. *)
Definition hex_digit (c : ascii) : option nat :=
  let n := nat_of_ascii c in
  if Nat.leb 48 n && Nat.leb n 57 then Some (n - 48)
  else if Nat.leb 97 n && Nat.leb n 102 then Some (n - 87)
  else if Nat.leb 65 n && Nat.leb n 70 then Some (n - 55)
  else None.

Fixpoint hex_value (s : string) (acc : Z) (seen : bool) : option Z :=
  match s with
  | String c s' =>
      match hex_digit c with
      | Some d => hex_value s' (acc * 16 + Z.of_nat d)%Z true
      | None => if seen then Some acc else None
      end
  | EmptyString => if seen then Some acc else None
  end.

(** What follows the sign: with no radix argument, a [0x] or [0X] prefix
    selects radix 16, anything else is read in radix 10. *)
Definition parse_unsigned (s : string) : option Z :=
  match s with
  | String z (String x s') =>
      if Ascii.eqb z "0"%char && (Ascii.eqb x "x"%char || Ascii.eqb x "X"%char)
      then hex_value s' 0 false
      else digits_value s 0 false
  | _ => digits_value s 0 false
  end.

(** [parseInt(v)], that is [parseInt(String(v))]: leading white space is
    skipped, then an optional sign, then the digits; [None] is [NaN].  The
    result is the exact integer the digits denote; JavaScript rounds it to
    the nearest double, which differs from it only for magnitudes above
    2^53. *)
Definition parseInt (v : jsval) : option Z :=
  match trim_start (js_to_string v) with
  | String c s' =>
      if Ascii.eqb c "-"%char then option_map Z.opp (parse_unsigned s')
      else if Ascii.eqb c "+"%char then parse_unsigned s'
      else parse_unsigned (String c s')
  | EmptyString => None
  end.

Definition executeWait (a : action) : M unit :=
  if match a_target a with JStr "time" => true | _ => false end
     || negb (truthy (a_target a)) then
    let waitTime := match parseInt (a_value a) with
                    | Some n => if Z.eqb n 0 then 1000%Z else n
                    | None => 1000%Z
                    end in
    log (EWaitForTimeout waitTime)
  else
    sel <- as_string "selector" (a_target a) ;;
    waitForSelector sel (a_timeout a).

Definition executeVerify (a : action) : M string :=
  match a_target a with
  | JStr "title" =>
      log ETitle ;;;
      let title := pg_title pg in
      let expected := js_to_string (a_value a) in
      if includes title expected then
        ret ("Title verification passed: " ++ dq ++ title ++ dq ++ " contains "
             ++ dq ++ expected ++ dq)
      else
        throw ("Title verification failed: " ++ dq ++ title ++ dq ++
               " does not contain " ++ dq ++ expected ++ dq)
  | tgt =>
      sel <- as_string "selector" tgt ;;
      log (EIsVisible sel) ;;;
      if negb (pg_isVisible pg sel) then throw ("Element not visible: " ++ sel)
      else if truthy (a_value a) then
        log (ETextContent sel) ;;;
        let text := pg_textContent pg sel in
        let v := js_to_string (a_value a) in
        if negb (includes text v) then
          throw ("Text verification failed: " ++ dq ++ text ++ dq ++
                 " does not contain " ++ dq ++ v ++ dq)
        else ret ("Text verification passed: found " ++ dq ++ v ++ dq)
      else ret ("Element verification passed: " ++ sel ++ " is visible")
  end.

Definition executeScroll (a : action) : M unit :=
  match a_target a with
  | JStr "top" => log (EScrollTo "top")
  | JStr "bottom" => log (EScrollTo "bottom")
  | tgt =>
      sel <- as_string "selector" tgt ;;
      call (EScrollIntoView sel) (pg_scrollIntoView pg sel)
           ("locator.scrollIntoViewIfNeeded: Timeout exceeded on " ++ sel)
  end.

Definition executeHover (a : action) : M unit :=
  sel <- as_string "selector" (a_target a) ;;
  call (EHover sel (a_timeout a)) (pg_hover pg sel) ("page.hover: Timeout exceeded on " ++ sel).

Definition executeSelect (a : action) : M unit :=
  sel <- as_string "selector" (a_target a) ;;
  call (ESelectOption sel (a_value a)) (pg_selectOption pg sel)
       ("page.selectOption: Timeout exceeded on " ++ sel).

(** [takeScreenshot]: the file name's ISO timestamp suffix is left out.  The
    capture error is caught, logged, and turned into [null]. *)
Definition takeScreenshot (sessionId stepId kind : string) : M (option string) :=
  let filename := sessionId ++ "_" ++ stepId ++ "_" ++ kind ++ ".png" in
  catch_ (call (EScreenshot filename) (pg_screenshot pg) "page.screenshot failed" ;;;
          ret (Some ("/screenshots/" ++ filename)))
         (fun _ => ret None).

(** The object [executeStep] returns ([executionTime] is left out). *)
Record step_result := {
  sr_stepId : string;
  sr_status : string;
  sr_error : option string;
  sr_actual : option string
}.

(** [result.critical]: the object literal built by [executeStep] has no
    [critical] property, and no code adds one, so the read is [undefined]. *)
Definition sr_critical (r : step_result) : jsval := JUndef.

Definition updateStepStatus (stepId status : string) : M unit :=
  modify_store (fun db =>
    {| sessions := sessions db;
       steps := map (fun row => if String.eqb (sp_id row) stepId then
                       {| sp_id := sp_id row; sp_session := sp_session row;
                          sp_number := sp_number row; sp_command := sp_command row;
                          sp_action := sp_action row; sp_status := status;
                          sp_actual := sp_actual row; sp_error := sp_error row;
                          sp_screenshot := sp_screenshot row |}
                     else row) (steps db) |}).

Definition updateStepResult (stepId : string) (r : step_result) (shot : option string) : M unit :=
  modify_store (fun db =>
    {| sessions := sessions db;
       steps := map (fun row => if String.eqb (sp_id row) stepId then
                       {| sp_id := sp_id row; sp_session := sp_session row;
                          sp_number := sp_number row; sp_command := sp_command row;
                          sp_action := sp_action row; sp_status := sr_status r;
                          sp_actual := sr_actual r; sp_error := sr_error r;
                          sp_screenshot := shot |}
                     else row) (steps db) |}).

(** The [switch (action.type)] of [executeStep]: the verification message
    and the explicit screenshot path, if any. *)
Definition dispatch (sessionId stepId : string) (a : action)
  : M (option string * option string) :=
  let t := a_type a in
  if String.eqb t "navigate" then executeNavigate a ;;; ret (None, None)
  else if String.eqb t "click" then executeClick a ;;; ret (None, None)
  else if String.eqb t "type" then executeType a ;;; ret (None, None)
  else if String.eqb t "wait" then executeWait a ;;; ret (None, None)
  else if String.eqb t "verify" then m <- executeVerify a ;; ret (Some m, None)
  else if String.eqb t "scroll" then executeScroll a ;;; ret (None, None)
  else if String.eqb t "hover" then executeHover a ;;; ret (None, None)
  else if String.eqb t "select" then executeSelect a ;;; ret (None, None)
  else if String.eqb t "screenshot" then
    p <- takeScreenshot sessionId stepId "step" ;; ret (None, p)
  else throw ("Unsupported action type: " ++ t).

(** The [try] block of [executeStep]. *)
Definition step_body (sessionId : string) (step : step_row)
  : M (option string * option string) :=
  updateStepStatus (sp_id step) "running" ;;;
  p <- dispatch sessionId (sp_id step) (sp_action step) ;;
  let (actual, shot) := p in
  shot' <- match shot with
           | None => takeScreenshot sessionId (sp_id step) "step"
           | Some path => ret (Some path)
           end ;;
  ret (actual, shot').

Definition executeStep (sessionId : string) (step : step_row) : M step_result :=
  outcome <- catch_ (p <- step_body sessionId step ;; ret (inl p))
                    (fun e => ret (inr e)) ;;
  match outcome with
  | inl (actual, shot) =>
      let r := {| sr_stepId := sp_id step; sr_status := "passed"; sr_error := None;
                  sr_actual := Some (match actual with
                                     | Some m => if String.eqb m "" then
                                                   "Action completed successfully" else m
                                     | None => "Action completed successfully"
                                     end) |} in
      updateStepResult (sp_id step) r shot ;;; ret r
  | inr e =>
      shot <- catch_ (takeScreenshot sessionId (sp_id step) "error") (fun _ => ret None) ;;
      let r := {| sr_stepId := sp_id step; sr_status := "failed";
                  sr_error := Some e; sr_actual := None |} in
      updateStepResult (sp_id step) r shot ;;; ret r
  end.

(** The step loop of [executeTest] (browser launch and close are not
    modelled). *)
Fixpoint executeTest (sessionId : string) (stps : list step_row) : M (list step_result) :=
  match stps with
  | [] => ret []
  | step :: rest =>
      r <- executeStep sessionId step ;;
      if String.eqb (sr_status r) "failed" && truthy (sr_critical r) then ret [r]
      else rs <- executeTest sessionId rest ;; ret (r :: rs)
  end.

End Executor.

(* ------------------------------------------------------------------ *)
(** ** The routes [POST /create] and [POST /execute/:sessionId] *)

Definition find_session (sessionId : string) (db : store) : option session_row :=
  find (fun r => String.eqb (ss_id r) sessionId) (sessions db).

Definition map_session (sessionId : string) (f : session_row -> session_row)
  (db : store) : store :=
  {| sessions := map (fun r => if String.eqb (ss_id r) sessionId then f r else r)
                     (sessions db);
     steps := steps db |}.

(** [UPDATE test_sessions SET status = ? WHERE id = ?] *)
Definition set_session_status (sessionId status : string) : store -> store :=
  map_session sessionId (fun r =>
    {| ss_id := ss_id r; ss_name := ss_name r; ss_status := status;
       ss_total := ss_total r; ss_passed := ss_passed r; ss_failed := ss_failed r |}).

(** [UPDATE test_sessions SET status = ?, passed_steps = ?, failed_steps = ?] *)
Definition set_session_result (sessionId status : string) (passed failed : nat)
  : store -> store :=
  map_session sessionId (fun r =>
    {| ss_id := ss_id r; ss_name := ss_name r; ss_status := status;
       ss_total := ss_total r; ss_passed := passed; ss_failed := failed |}).

Fixpoint insert_by_number (r : step_row) (l : list step_row) : list step_row :=
  match l with
  | [] => [r]
  | h :: t => if Nat.leb (sp_number r) (sp_number h) then r :: h :: t
              else h :: insert_by_number r t
  end.

(** [SELECT * FROM test_steps WHERE session_id = ? ORDER BY step_number] *)
Definition session_steps (sessionId : string) (db : store) : list step_row :=
  fold_right insert_by_number []
    (filter (fun r => String.eqb (sp_session r) sessionId) (steps db)).

Definition count_status (status : string) (rs : list step_result) : nat :=
  length (filter (fun r => String.eqb (sr_status r) status) rs).

Inductive exec_response :=
| Exec404
| Exec500
| ExecDone (sessionId status : string) (results : list step_result)
           (total passed failed : nat).

Definition execute_route (pg : page) (sessionId : string) : M exec_response :=
  catch_ (
    db <- get_store ;;
    match find_session sessionId db with
    | None => ret Exec404
    | Some _ =>
        let stps := session_steps sessionId db in
        modify_store (set_session_status sessionId "running") ;;;
        results <- executeTest pg sessionId stps ;;
        let passedSteps := count_status "passed" results in
        let failedSteps := count_status "failed" results in
        let finalStatus := if Nat.ltb 0 failedSteps then "failed" else "passed" in
        modify_store (set_session_result sessionId finalStatus passedSteps failedSteps) ;;;
        ret (ExecDone sessionId finalStatus results (length stps) passedSteps failedSteps)
    end)
    (fun _ => ret Exec500).

(** One entry of the [steps] array the create route answers with. *)
Record step_view := {
  v_id : string;
  v_stepNumber : nat;
  v_command : string;
  v_action : option action;
  v_status : string;
  v_error : option string
}.

Inductive create_response :=
| Create400 (msg : string)
| Create500
| Created (sessionId : string) (stps : list step_view).

Section Create.

(** Fresh ids ([uuidv4()]) for the steps, by position, and the language
    capability's answer for each command. *)
Variable uuid : nat -> string.
Variable llm : string -> llm_response.

(** The [for] loop of the create route, from index [i]. *)
Fixpoint create_steps (sessionId : string) (commands : list string) (i : nat)
  : M (list step_view) :=
  match commands with
  | [] => ret []
  | command :: rest =>
      let stepId := uuid i in
      v <- match translateCommand command (llm command) with
           | Ok a =>
               modify_store (fun db =>
                 {| sessions := sessions db;
                    steps := steps db ++
                      [{| sp_id := stepId; sp_session := sessionId; sp_number := S i;
                          sp_command := command; sp_action := a; sp_status := "pending";
                          sp_actual := None; sp_error := None; sp_screenshot := None |}] |}) ;;;
               ret {| v_id := stepId; v_stepNumber := S i; v_command := command;
                      v_action := Some a; v_status := "pending"; v_error := None |}
           | Err e =>
               ret {| v_id := stepId; v_stepNumber := S i; v_command := command;
                      v_action := None; v_status := "failed"; v_error := Some e |}
           end ;;
      vs <- create_steps sessionId rest (S i) ;;
      ret (v :: vs)
  end.

(** [POST /create].  Of the Joi schema, the checks on [name] and [commands]
    are modelled; [targetUrl] only reaches the language capability's prompt,
    which [llm] stands for. *)
Definition create_route (sessionId name : string) (commands : list string) : M create_response :=
  if String.eqb name "" || Nat.ltb 255 (String.length name) then
    ret (Create400 "name is invalid")
  else if match commands with [] => true | _ => false end then
    ret (Create400 "commands must contain at least 1 items")
  else
    catch_ (
      modify_store (fun db =>
        {| sessions := sessions db ++
             [{| ss_id := sessionId; ss_name := name; ss_status := "pending";
                 ss_total := length commands; ss_passed := 0; ss_failed := 0 |}];
           steps := steps db |}) ;;;
      vs <- create_steps sessionId commands 0 ;;
      ret (Created sessionId vs))
      (fun _ => ret Create500).

End Create.

(* ------------------------------------------------------------------ *)
(** ** The routes [GET /:sessionId] and [DELETE /:sessionId] *)

Inductive get_response :=
| Get404
| Get500
| GotSession (s : session_row) (stps : list step_row).

(** [GET /:sessionId]: the session row and its steps by step number; the
    stored [translated_action] is parsed back, which gives the action
    itself in this embedding. *)
Definition get_route (sessionId : string) : M get_response :=
  catch_ (
    db <- get_store ;;
    match find_session sessionId db with
    | None => ret Get404
    | Some s => ret (GotSession s (session_steps sessionId db))
    end)
    (fun _ => ret Get500).

Inductive delete_response :=
| Deleted
| Delete500.

(** [DELETE /:sessionId]: the steps go first, then the session row; the
    second statement rejects when it removed no row ([this.changes === 0]). *)
Definition delete_route (sessionId : string) : M delete_response :=
  catch_ (
    modify_store (fun db =>
      {| sessions := sessions db;
         steps := filter (fun r => negb (String.eqb (sp_session r) sessionId)) (steps db) |}) ;;;
    db <- get_store ;;
    let changes := length (filter (fun r => String.eqb (ss_id r) sessionId) (sessions db)) in
    modify_store (fun db =>
      {| sessions := filter (fun r => negb (String.eqb (ss_id r) sessionId)) (sessions db);
         steps := steps db |}) ;;;
    if Nat.eqb changes 0 then throw "Session not found" else ret Deleted)
    (fun _ => ret Delete500).

(* ------------------------------------------------------------------ *)
(** ** testExecutor.js: [getBrowser] *)

Inductive browser := chromium | firefox | webkit.

Definition getBrowser (browserType : string) : browser :=
  let t := toLowerCase browserType in
  if String.eqb t "firefox" then firefox
  else if String.eqb t "webkit" || String.eqb t "safari" then webkit
  else chromium.

(** [getBrowser(process.env.BROWSER_TYPE || 'chromium')] in [executeTest]. *)
Definition browser_of_env (env : option string) : browser :=
  getBrowser (match env with
              | Some t => if String.eqb t "" then "chromium" else t
              | None => "chromium"
              end).

(* ------------------------------------------------------------------ *)
(** ** Auxiliary definitions for the statements *)

(** The suffix of [s] after its first [n] characters. *)
Fixpoint drop_chars (n : nat) (s : string) : string :=
  match n, s with
  | O, _ => s
  | S n', String _ s' => drop_chars n' s'
  | S _, EmptyString => EmptyString
  end.

Fixpoint all_chars (p : ascii -> bool) (s : string) : bool :=
  match s with
  | EmptyString => true
  | String c s' => p c && all_chars p s'
  end.

(** Number of screenshot captures in a trace. *)
Fixpoint count_shots (tr : list event) : nat :=
  match tr with
  | [] => 0
  | EScreenshot _ :: tr' => S (count_shots tr')
  | _ :: tr' => count_shots tr'
  end.

(** Stored steps of a session still in status ['pending']. *)
Definition pending_steps (sessionId : string) (db : store) : nat :=
  length (filter (fun r => String.eqb (sp_session r) sessionId
                           && String.eqb (sp_status r) "pending") (steps db)).

(** The same page, with the screenshot capture succeeding or not. *)
Definition with_screenshot (pg : page) (b : bool) : page :=
  {| pg_goto := pg_goto pg; pg_waitForSelector := pg_waitForSelector pg;
     pg_click := pg_click pg; pg_fill := pg_fill pg; pg_title := pg_title pg;
     pg_isVisible := pg_isVisible pg; pg_textContent := pg_textContent pg;
     pg_scrollIntoView := pg_scrollIntoView pg; pg_hover := pg_hover pg;
     pg_selectOption := pg_selectOption pg; pg_screenshot := b |}.

(** The state after appending calls to the trace. *)
Definition add_trace (st : state) (evs : list event) : state :=
  {| st_store := st_store st; st_trace := st_trace st ++ evs |}.

(** The existence probe [page.waitForSelector(selector, { timeout: 5000 })]. *)
Definition probe (sel : string) : event := EWaitForSelector sel (JNum 5000).

(** [m] only appends to the trace, and what it appends satisfies [P]. *)
Definition extends_by {A} (P : list event -> Prop) (m : M A) : Prop :=
  forall st, exists ext, st_trace (snd (m st)) = (st_trace st ++ ext)%list /\ P ext.

(** [m] only appends to the trace, and captures no screenshot. *)
Definition shot_free {A} (m : M A) : Prop :=
  extends_by (fun ext => count_shots ext = 0) m.

(** A page on which only the selector [#b] exists, every navigation but one
    to [bad-url] succeeds, and the title is [Example Domain]. *)
Definition sample_page : page :=
  {| pg_goto := fun u => negb (String.eqb u "bad-url");
     pg_waitForSelector := fun sel => String.eqb sel "#b";
     pg_click := fun _ => true; pg_fill := fun _ => true;
     pg_title := "Example Domain";
     pg_isVisible := fun _ => true; pg_textContent := fun _ => "";
     pg_scrollIntoView := fun _ => true; pg_hover := fun _ => true;
     pg_selectOption := fun _ => true; pg_screenshot := true |}.

Definition empty_state : state :=
  {| st_store := {| sessions := []; steps := [] |}; st_trace := [] |}.

(** A stored step row as the create route inserts it. *)
Definition mk_step (sid id : string) (n : nat) (cmd : string) (a : action) : step_row :=
  {| sp_id := id; sp_session := sid; sp_number := n; sp_command := cmd; sp_action := a;
     sp_status := "pending"; sp_actual := None; sp_error := None; sp_screenshot := None |}.

(** An action as [validateAction] returns it, with the default description,
    [waitFor] and [timeout]. *)
Definition mk_action (t : string) (target value : jsval) : action :=
  {| a_type := t; a_target := target; a_value := value;
     a_description := JStr ("Execute " ++ t ++ " action");
     a_waitFor := JNull; a_timeout := JNum 30000 |}.

(** A session ["S"] in status ['pending'] whose steps are a navigation to
    [bad-url], a click on [#b] and a verification of the title. *)
Definition abort_state : state :=
  {| st_store :=
       {| sessions := [{| ss_id := "S"; ss_name := "Abort"; ss_status := "pending";
                          ss_total := 3; ss_passed := 0; ss_failed := 0 |}];
          steps := [mk_step "S" "1" 1 "Navigate to bad-url"
                      (mk_action "navigate" (JStr "bad-url") (JStr "bad-url"));
                    mk_step "S" "2" 2 "Click #b" (mk_action "click" (JStr "#b") JUndef);
                    mk_step "S" "3" 3 "Verify the title contains Example"
                      (mk_action "verify" (JStr "title") (JStr "Example"))] |};
     st_trace := [] |}.

(** Stored statuses of a session's steps, in step order. *)
Definition step_statuses (sessionId : string) (db : store) : list string :=
  map sp_status (session_steps sessionId db).

(** Step ids [0], [1], ... and a language capability that always fails. *)
Definition step_uuid (i : nat) : string := String (ascii_of_nat (48 + i)) EmptyString.

Definition llm_down (_ : string) : llm_response := LLMFail "API Error".

(** Two commands: the first has a fallback translation, the second none. *)
Definition demo_commands : list string :=
  ["Navigate to https://example.com"; "Hover over the menu"].

(** The first character of [s] is white space. *)
Definition starts_space (s : string) : bool :=
  match s with String c _ => is_space c | EmptyString => false end.

(** [s] neither begins nor ends with white space. *)
Definition no_edge_space (s : string) : bool :=
  negb (starts_space s) && negb (starts_space (rev_string s)).

(** The [test_steps] rows the create route inserts for the entries of its
    answer: one per entry that carries a translated action. *)
Fixpoint stored_rows (sessionId : string) (vs : list step_view) : list step_row :=
  match vs with
  | [] => []
  | v :: vs' =>
      match v_action v with
      | Some a => mk_step sessionId (v_id v) (v_stepNumber v) (v_command v) a
                  :: stored_rows sessionId vs'
      | None => stored_rows sessionId vs'
      end
  end.

(** A character other than the comma. *)
Definition no_comma (c : ascii) : bool := negb (Ascii.eqb c ","%char).

(** A computation that leaves the SQLite store as it found it. *)
Definition keeps_store {A} (m : M A) : Prop :=
  forall st, st_store (snd (m st)) = st_store st.

(** The row update of [updateStepResult] for one row. *)
Definition write_result (id : string) (r : step_result) (shot : option string)
  (row : step_row) : step_row :=
  if String.eqb (sp_id row) id then
    {| sp_id := sp_id row; sp_session := sp_session row; sp_number := sp_number row;
       sp_command := sp_command row; sp_action := sp_action row;
       sp_status := sr_status r; sp_actual := sr_actual r; sp_error := sr_error r;
       sp_screenshot := shot |}
  else row.

(* ------------------------------------------------------------------ *)
(** ** Lemmas on strings *)

Lemma prefixb_app (p s : string) : prefixb p (p ++ s) = true.
Proof.
  induction p as [|c p IH]; simpl; [reflexivity|].
  rewrite Ascii.eqb_refl. exact IH.
Qed.

Lemma includes_app_r (a s sub : string) :
  includes s sub = true -> includes (a ++ s) sub = true.
Proof.
  intros H. induction a as [|c a IH]; simpl; [exact H|].
  rewrite IH. apply orb_true_r.
Qed.

Lemma includes_middle (a b c : string) : includes (a ++ b ++ c) b = true.
Proof.
  apply includes_app_r. destruct b; simpl.
  - destruct c; reflexivity.
  - rewrite Ascii.eqb_refl, prefixb_app. reflexivity.
Qed.

Lemma span_spec (p : ascii -> bool) (s w r : string) :
  span p s = (w, r) ->
  s = w ++ r /\ all_chars p w = true /\
  match r with String c _ => p c = false | EmptyString => True end.
Proof.
  revert w r. induction s as [|c s IH]; intros w r H; simpl in H.
  - inversion H; subst. simpl. auto.
  - destruct (p c) eqn:Hc.
    + destruct (span p s) as [w' r'] eqn:E. injection H as <- <-.
      destruct (IH w' r' eq_refl) as [-> [Ha Hr]].
      simpl. rewrite Hc, Ha. auto.
    + injection H as <- <-. simpl. rewrite Hc. auto.
Qed.

(** [extractQuotedText] returns the group of the leftmost match: a
    non-empty quote-free run between two quote characters, with no match
    starting earlier. *)
Lemma extractQuotedText_spec (s v : string) :
  extractQuotedText s = Some v ->
  exists p q1 q2 r,
    s = p ++ String q1 (v ++ String q2 r) /\
    is_quote q1 = true /\ is_quote q2 = true /\ v <> EmptyString /\
    all_chars (fun c => negb (is_quote c)) v = true /\
    (forall k, k < String.length p -> quoted_at (drop_chars k s) = None).
Proof.
  induction s as [|c s IH]; intros H.
  - discriminate H.
  - assert (E : extractQuotedText (String c s) =
                match quoted_at (String c s) with
                | Some g => Some g
                | None => extractQuotedText s
                end) by reflexivity.
    rewrite E in H. clear E.
    destruct (quoted_at (String c s)) as [g|] eqn:Eq.
    + injection H as <-.
      simpl in Eq. destruct (is_quote c) eqn:Hq; [|discriminate].
      destruct (span (fun c0 => negb (is_quote c0)) s) as [run after] eqn:Es.
      destruct run as [|c1 run']; [discriminate|].
      destruct after as [|q' rest]; [discriminate|].
      destruct (is_quote q') eqn:Hq'; [|discriminate].
      injection Eq as <-.
      destruct (span_spec _ _ _ _ Es) as [-> [Hall _]].
      exists EmptyString, c, q', rest. simpl.
      repeat split; auto; [discriminate|].
      intros k Hk; inversion Hk.
    + destruct (IH H) as (p & q1 & q2 & r & -> & H1 & H2 & H3 & H4 & H5).
      exists (String c p), q1, q2, r.
      repeat split; auto.
      intros [|k] Hk; simpl in Hk |- *.
      * exact Eq.
      * apply H5. lia.
Qed.

(* ------------------------------------------------------------------ *)
(** ** Claims on the translator *)

Lemma truthy_js_or_default (x : jsval) (d : jsval) :
  truthy d = true -> truthy (js_or x d) = true.
Proof. unfold js_or. destruct (truthy x) eqn:E; auto. Qed.

(** C4 (as amended): the deterministic fallback checks its rules in the
    order click, type, navigate.  A [click] verb anywhere in the lowercased
    instruction yields a click action, whatever navigation verb or URL it
    also contains; otherwise a [type]/[enter] verb with a quoted string
    yields a type action; only when neither of these rules fired does the
    navigate rule apply, and then a navigation verb with a URL yields a
    navigation to that URL. *)
Theorem fallback_click_takes_priority (command : string) :
  let lc := toLowerCase command in
  let type_rule := (includes lc "type" || includes lc "enter") &&
                   match extractQuotedText command with Some _ => true | None => false end in
  (includes lc "click" = true ->
     exists a, getFallbackAction command = Some a /\ a_type a = "click") /\
  (includes lc "click" = false -> type_rule = true ->
     exists a, getFallbackAction command = Some a /\ a_type a = "type") /\
  (forall a, getFallbackAction command = Some a -> a_type a = "navigate" ->
     includes lc "click" = false /\ type_rule = false) /\
  (includes lc "click" = false -> type_rule = false ->
     (includes lc "navigate" || includes lc "go to") = true ->
     forall url, extractUrl command = Some url ->
     exists a, getFallbackAction command = Some a /\ a_type a = "navigate" /\
               a_value a = JStr url).
Proof.
  cbv zeta. unfold getFallbackAction. cbv zeta.
  destruct (includes (toLowerCase command) "click") eqn:Ec.
  - split; [intros _; eexists; split; reflexivity|].
    split; [intros H; discriminate H|].
    split; [intros a Ha Ht; injection Ha as <-; discriminate Ht|].
    intros H; discriminate H.
  - split; [intros H; discriminate H|].
    destruct (includes (toLowerCase command) "type" || includes (toLowerCase command) "enter")
      eqn:Et; cbn [andb];
    destruct (extractQuotedText command) as [q|] eqn:Eq.
    + split; [intros _ _; eexists; split; reflexivity|].
      split; [intros a Ha Ht; injection Ha as <-; discriminate Ht|].
      intros _ H; discriminate H.
    + split; [intros _ H; discriminate H|].
      split; [intros a Ha Ht; split; reflexivity|].
      intros _ _ Hn url Hu. rewrite Hn, Hu. eexists. repeat split.
    + split; [intros _ H; discriminate H|].
      split; [intros a Ha Ht; split; reflexivity|].
      intros _ _ Hn url Hu. rewrite Hn, Hu. eexists. repeat split.
    + split; [intros _ H; discriminate H|].
      split; [intros a Ha Ht; split; reflexivity|].
      intros _ _ Hn url Hu. rewrite Hn, Hu. eexists. repeat split.
Qed.

Lemma fallback_click_takes_priority_witness :
  includes (toLowerCase "Go to https://example.com and click Login") "click" = true /\
  exists a, getFallbackAction "Go to https://example.com and click Login" = Some a
            /\ a_type a = "click".
Proof.
  split; [reflexivity|].
  apply (proj1 (fallback_click_takes_priority "Go to https://example.com and click Login")).
  reflexivity.
Defined.

(** C4 (counterexample): an instruction with both a navigation verb and a
    URL and a click verb is translated to a click, not a navigation. *)
Lemma fallback_navigation_not_prioritised :
  let command := "Go to https://example.com and click Login" in
  includes (toLowerCase command) "go to" = true /\
  extractUrl command = Some "https://example.com" /\
  includes (toLowerCase command) "click" = true /\
  option_map a_type (getFallbackAction command) = Some "click".
Proof. vm_compute. repeat split. Qed.

(** C5: [validateAction] rejects an action of kind [type] whose value is
    absent, null or empty, with the message naming the value to type; a
    non-empty string value is accepted and kept. *)
Theorem validate_type_requires_value (r : raw_action) :
  r_type r = JStr "type" ->
  ((r_value r = JUndef \/ r_value r = JNull \/ r_value r = JStr "") ->
   validateAction (IObj r) = Err "Type action requires a value to type") /\
  (forall s, r_value r = JStr s -> s <> "" ->
   exists a, validateAction (IObj r) = Ok a /\ a_type a = "type" /\ a_value a = JStr s).
Proof.
  intros Ht. unfold validateAction. rewrite Ht. simpl. split.
  - intros [H|[H|H]]; rewrite H; reflexivity.
  - intros s Hs Hne. rewrite Hs. unfold js_or, truthy.
    destruct (String.eqb s "") eqn:E.
    + apply String.eqb_eq in E. contradiction.
    + simpl. rewrite E. simpl. eexists. repeat split.
Qed.

Lemma validate_type_requires_value_witness :
  let r := {| r_type := JStr "type"; r_target := JStr "#email"; r_value := JUndef;
              r_description := JUndef; r_waitFor := JUndef; r_timeout := JUndef |} in
  r_type r = JStr "type" /\
  validateAction (IObj r) = Err "Type action requires a value to type".
Proof.
  cbv zeta. split; [reflexivity|].
  apply (validate_type_requires_value
           {| r_type := JStr "type"; r_target := JStr "#email"; r_value := JUndef;
              r_description := JUndef; r_waitFor := JUndef; r_timeout := JUndef |}
           eq_refl).
  left. reflexivity.
Defined.

(** C6 (code bug): the literal example holds: with the language capability
    failing, [Type "hello" in the box] becomes the type action on
    [input, textarea] with value [hello].  But the quote pattern of
    [extractQuotedText] does not pair its quotes, so an apostrophe opens a
    match: in [Enter the user's name "Bob"] the only quoted string is [Bob],
    yet the fallback types [s name ]. *)
Lemma fallback_value_not_first_quoted_string :
  (forall msg,
     translateCommand ("Type " ++ dq ++ "hello" ++ dq ++ " in the box") (LLMFail msg) =
     Ok {| a_type := "type"; a_target := JStr "input, textarea"; a_value := JStr "hello";
           a_description := JStr ("Type " ++ dq ++ "hello" ++ dq);
           a_waitFor := JUndef; a_timeout := JNum 30000 |}) /\
  let command := "Enter the user's name " ++ dq ++ "Bob" ++ dq in
  exists a, translateCommand command (LLMFail "API Error") = Ok a /\
            a_type a = "type" /\ a_value a = JStr "s name " /\ a_value a <> JStr "Bob".
Proof.
  split; [intros msg; reflexivity|].
  vm_compute. eexists. repeat split. discriminate.
Qed.

(** C10 (counterexample): a truthy non-string target is kept as it is, so
    a validated action's target need not be a string. *)
Lemma validate_keeps_non_string_target :
  exists a,
    validateAction (IObj {| r_type := JStr "click"; r_target := JNum 5; r_value := JUndef;
                            r_description := JUndef; r_waitFor := JUndef;
                            r_timeout := JUndef |}) = Ok a /\
    a_target a = JNum 5.
Proof. eexists. split; reflexivity. Qed.

(** C10 (as amended): an accepted action is built from an object whose
    [type] is a supported kind; [target], [value], [description], [waitFor]
    and [timeout] are the input's values when truthy (of whatever JSON
    type) and otherwise [''], [''], ['Execute <type> action'], [null] and
    [30000]; so the timeout is always truthy. *)
Theorem validateAction_normalises (i : input) (a : action) :
  validateAction i = Ok a ->
  exists r, i = IObj r /\ r_type r = JStr (a_type a) /\ In (a_type a) SUPPORTED_ACTIONS /\
    a_target a = js_or (r_target r) (JStr "") /\
    a_value a = js_or (r_value r) (JStr "") /\
    a_description a = js_or (r_description r) (JStr ("Execute " ++ a_type a ++ " action")) /\
    a_waitFor a = js_or (r_waitFor r) JNull /\
    a_timeout a = js_or (r_timeout r) (JNum 30000) /\
    truthy (a_timeout a) = true.
Proof.
  intros H. destruct i as [r|v]; unfold validateAction in H; cbv beta iota zeta in H;
    [|discriminate H].
  destruct (r_type r) as [| | | |t|] eqn:Et; try discriminate H.
  destruct (negb (String.eqb t "") && existsb (String.eqb t) SUPPORTED_ACTIONS) eqn:Hs;
    [|discriminate H].
  apply andb_prop in Hs as [_ Hin].
  apply existsb_exists in Hin as [t' [Hin Ht']]. apply String.eqb_eq in Ht'. subst t'.
  assert (Ha : a = {| a_type := t;
                      a_target := js_or (r_target r) (JStr "");
                      a_value := js_or (r_value r) (JStr "");
                      a_description := js_or (r_description r) (JStr ("Execute " ++ t ++ " action"));
                      a_waitFor := js_or (r_waitFor r) JNull;
                      a_timeout := js_or (r_timeout r) (JNum 30000) |}).
  { repeat match type of H with
           | context [if ?c then _ else _] => destruct c
           end; congruence. }
  subst a. exists r. simpl. repeat split; auto.
  apply truthy_js_or_default. reflexivity.
Qed.

Lemma validateAction_normalises_witness :
  exists a,
    validateAction (IObj {| r_type := JStr "click"; r_target := JNum 5; r_value := JUndef;
                            r_description := JUndef; r_waitFor := JUndef;
                            r_timeout := JNum 0 |}) = Ok a /\
    truthy (a_timeout a) = true.
Proof.
  eexists. split; [reflexivity|].
  destruct (validateAction_normalises
              (IObj {| r_type := JStr "click"; r_target := JNum 5; r_value := JUndef;
                       r_description := JUndef; r_waitFor := JUndef; r_timeout := JNum 0 |})
              _ eq_refl) as (r & _ & _ & _ & _ & _ & _ & _ & _ & Ht).
  exact Ht.
Defined.

(* ------------------------------------------------------------------ *)
(** ** The monad only appends to the trace *)

Open Scope list_scope.

Section Extends.

Variable P : list event -> Prop.
Hypothesis P_nil : P [].
Hypothesis P_app : forall l1 l2, P l1 -> P l2 -> P (l1 ++ l2).

Lemma extends_ret {A} (a : A) : extends_by P (ret a).
Proof. intros st. exists []. rewrite app_nil_r. auto. Qed.

Lemma extends_throw {A} (e : string) : extends_by P (@throw A e).
Proof. intros st. exists []. rewrite app_nil_r. auto. Qed.

Lemma extends_bind {A B} (m : M A) (f : A -> M B) :
  extends_by P m -> (forall a, extends_by P (f a)) -> extends_by P (bind m f).
Proof.
  intros Hm Hf st. unfold bind. destruct (Hm st) as [e1 [He1 P1]].
  destruct (m st) as [[a|e] st1]; simpl in *.
  - destruct (Hf a st1) as [e2 [He2 P2]]. exists (e1 ++ e2).
    rewrite He2, He1, app_assoc. auto.
  - exists e1. auto.
Qed.

Lemma extends_catch {A} (m : M A) (h : string -> M A) :
  extends_by P m -> (forall e, extends_by P (h e)) -> extends_by P (catch_ m h).
Proof.
  intros Hm Hh st. unfold catch_. destruct (Hm st) as [e1 [He1 P1]].
  destruct (m st) as [[a|e] st1]; simpl in *.
  - exists e1. auto.
  - destruct (Hh e st1) as [e2 [He2 P2]]. exists (e1 ++ e2).
    rewrite He2, He1, app_assoc. auto.
Qed.

Lemma extends_log (e : event) : P [e] -> extends_by P (log e).
Proof. intros He st. exists [e]. auto. Qed.

Lemma extends_call (e : event) ok msg : P [e] -> extends_by P (call e ok msg).
Proof.
  intros He. unfold call. apply extends_bind; [apply extends_log; exact He|].
  intros _. destruct ok; [apply extends_ret|apply extends_throw].
Qed.

Lemma extends_modify (f : store -> store) : extends_by P (modify_store f).
Proof. intros st. exists []. rewrite app_nil_r. auto. Qed.

Lemma extends_as_string what v : extends_by P (as_string what v).
Proof. destruct v; (apply extends_ret || apply extends_throw). Qed.

Lemma extends_try_selectors pg (act : string -> M unit) sels :
  (forall sel, extends_by P (act sel)) -> (forall sel, P [probe sel]) ->
  extends_by P (try_selectors pg act sels).
Proof.
  intros Hact Hp. induction sels as [|sel rest IH]; simpl.
  - apply extends_ret.
  - apply extends_catch; [|intros; exact IH].
    apply extends_bind; [apply extends_call, Hp|intros _].
    apply extends_bind; [apply Hact|intros _]. apply extends_ret.
Qed.

End Extends.

(* ------------------------------------------------------------------ *)
(** ** The candidate loop of [executeClick] and [executeType] *)

Lemma try_selectors_skip pg act pre rest st :
  forallb (fun x => negb (pg_waitForSelector pg x)) pre = true ->
  try_selectors pg act (pre ++ rest) st =
  try_selectors pg act rest (add_trace st (map probe pre)).
Proof.
  revert st. induction pre as [|x pre IH]; intros st H; simpl.
  - unfold add_trace. rewrite app_nil_r. destruct st; reflexivity.
  - simpl in H. apply andb_prop in H as [Hx Hpre].
    destruct (pg_waitForSelector pg x) eqn:E; [discriminate|].
    unfold catch_, bind at 1, waitForSelector, call, bind at 1, log. simpl.
    rewrite E. simpl. rewrite IH by exact Hpre.
    unfold add_trace. simpl. rewrite <- app_assoc. reflexivity.
Qed.

Lemma try_selectors_none pg act sels st :
  forallb (fun x => negb (pg_waitForSelector pg x)) sels = true ->
  try_selectors pg act sels st = (Ok false, add_trace st (map probe sels)).
Proof.
  intros H. rewrite <- (app_nil_r sels), try_selectors_skip by exact H.
  rewrite app_nil_r. reflexivity.
Qed.

Lemma try_selectors_hit pg (ev : string -> event) (ok : string -> bool)
      (msg : string -> string) pre c post st :
  forallb (fun x => negb (pg_waitForSelector pg x)) pre = true ->
  pg_waitForSelector pg c = true ->
  let act := fun sel => call (ev sel) (ok sel) (msg sel) in
  (exists rest, st_trace (snd (try_selectors pg act (pre ++ c :: post) st)) =
                st_trace st ++ map probe pre ++ [probe c; ev c] ++ rest) /\
  (ok c = true -> try_selectors pg act (pre ++ c :: post) st =
                  (Ok true, add_trace st (map probe pre ++ [probe c; ev c]))).
Proof.
  intros Hpre Hc act. rewrite try_selectors_skip by exact Hpre.
  set (st1 := add_trace st (map probe pre)).
  assert (Hstep : try_selectors pg act (c :: post) st1 =
                  if ok c then (Ok true, add_trace st1 [probe c; ev c])
                  else try_selectors pg act post (add_trace st1 [probe c; ev c])).
  { simpl. unfold catch_, bind, waitForSelector, call, log, act, ret, throw, add_trace.
    simpl. rewrite Hc. destruct (ok c); cbn; rewrite <- !app_assoc; reflexivity. }
  rewrite Hstep. unfold st1, add_trace. simpl. split.
  - destruct (ok c).
    + exists []. simpl. rewrite <- !app_assoc. reflexivity.
    + assert (Hext : extends_by (fun _ => True) (try_selectors pg act post)).
      { apply extends_try_selectors; intros; try exact I.
        apply extends_call; intros; exact I. }
      destruct (Hext {| st_store := st_store st;
                     st_trace := (st_trace st ++ map probe pre) ++ [probe c; ev c] |})
        as [ext [He _]].
      exists ext. rewrite He. simpl. rewrite <- !app_assoc. reflexivity.
  - intros Hok. rewrite Hok. rewrite <- app_assoc. reflexivity.
Qed.

Lemma executeClick_eq pg a t st :
  a_target a = JStr t ->
  executeClick pg a st =
  match try_selectors pg (fun sel => call (EClick sel (a_timeout a)) (pg_click pg sel)
                                         ("page.click: Timeout exceeded on " ++ sel))
                      (candidates_of t) st with
  | (Ok true, s') => (Ok tt, s')
  | (Ok false, s') =>
      (Err ("Could not find clickable element with any of the selectors: " ++ t), s')
  | (Err e, s') => (Err e, s')
  end.
Proof.
  intros H. unfold executeClick, candidates, bind at 1, ret at 1. rewrite H.
  cbv beta iota. unfold bind.
  match goal with |- context [try_selectors ?p ?f ?l ?s] =>
    destruct (try_selectors p f l s) as [[[|]|e] s'] end; reflexivity.
Qed.

Lemma executeType_eq pg a t st :
  a_target a = JStr t ->
  executeType pg a st =
  match try_selectors pg (fun sel => call (EFill sel (a_value a)) (pg_fill pg sel)
                                         ("page.fill: Timeout exceeded on " ++ sel))
                      (candidates_of t) st with
  | (Ok true, s') => (Ok tt, s')
  | (Ok false, s') =>
      (Err ("Could not find input element with any of the selectors: " ++ t), s')
  | (Err e, s') => (Err e, s')
  end.
Proof.
  intros H. unfold executeType, candidates, bind at 1, ret at 1. rewrite H.
  cbv beta iota. unfold bind.
  match goal with |- context [try_selectors ?p ?f ?l ?s] =>
    destruct (try_selectors p f l s) as [[[|]|e] s'] end; reflexivity.
Qed.

(** C8: for a click or type action whose target is the comma-separated
    candidate list [t], the executor probes the candidates in list order with
    the 5000ms existence probe; the first call after the probes of the
    non-resolving candidates is the action on the first resolving one, and
    when that action succeeds the step returns normally with nothing else
    recorded.  If no candidate resolves, the action fails with an error
    naming the whole candidate list, after probing every candidate once. *)
Theorem executeClick_executeType_candidates (pg : page) (a : action) (t : string) (st : state) :
  a_target a = JStr t ->
  (forall pre c post,
     candidates_of t = pre ++ c :: post ->
     forallb (fun x => negb (pg_waitForSelector pg x)) pre = true ->
     pg_waitForSelector pg c = true ->
     ((exists rest, st_trace (snd (executeClick pg a st)) =
                    st_trace st ++ map probe pre ++ [probe c; EClick c (a_timeout a)] ++ rest) /\
      (pg_click pg c = true ->
       executeClick pg a st =
       (Ok tt, add_trace st (map probe pre ++ [probe c; EClick c (a_timeout a)])))) /\
     ((exists rest, st_trace (snd (executeType pg a st)) =
                    st_trace st ++ map probe pre ++ [probe c; EFill c (a_value a)] ++ rest) /\
      (pg_fill pg c = true ->
       executeType pg a st =
       (Ok tt, add_trace st (map probe pre ++ [probe c; EFill c (a_value a)]))))) /\
  (forallb (fun x => negb (pg_waitForSelector pg x)) (candidates_of t) = true ->
   executeClick pg a st =
   (Err ("Could not find clickable element with any of the selectors: " ++ t),
    add_trace st (map probe (candidates_of t))) /\
   executeType pg a st =
   (Err ("Could not find input element with any of the selectors: " ++ t),
    add_trace st (map probe (candidates_of t)))).
Proof.
  intros Ht. split.
  - intros pre c post Hcs Hpre Hc.
    rewrite (executeClick_eq pg a t st Ht), (executeType_eq pg a t st Ht), Hcs.
    split.
    + destruct (try_selectors_hit pg (fun sel => EClick sel (a_timeout a)) (pg_click pg)
                  (fun sel => "page.click: Timeout exceeded on " ++ sel)%string
                  pre c post st Hpre Hc) as [[rest Hr] Hok].
      split.
      * exists rest. rewrite <- Hr.
        destruct (try_selectors _ _ (pre ++ c :: post) st) as [[[|]|e] s']; reflexivity.
      * intros Hcl. rewrite (Hok Hcl). reflexivity.
    + destruct (try_selectors_hit pg (fun sel => EFill sel (a_value a)) (pg_fill pg)
                  (fun sel => "page.fill: Timeout exceeded on " ++ sel)%string
                  pre c post st Hpre Hc) as [[rest Hr] Hok].
      split.
      * exists rest. rewrite <- Hr.
        destruct (try_selectors _ _ (pre ++ c :: post) st) as [[[|]|e] s']; reflexivity.
      * intros Hcl. rewrite (Hok Hcl). reflexivity.
  - intros Hnone.
    rewrite (executeClick_eq pg a t st Ht), (executeType_eq pg a t st Ht).
    rewrite !try_selectors_none by exact Hnone. split; reflexivity.
Qed.

Lemma executeClick_executeType_candidates_witness :
  executeClick sample_page
    {| a_type := "click"; a_target := JStr ".a, #b, text=Foo"; a_value := JStr "";
       a_description := JStr "Click"; a_waitFor := JNull; a_timeout := JNum 30000 |}
    empty_state =
  (Ok tt, add_trace empty_state [probe ".a"; probe "#b"; EClick "#b" (JNum 30000)]).
Proof.
  apply (proj2 (proj1 (proj1 (executeClick_executeType_candidates sample_page
    {| a_type := "click"; a_target := JStr ".a, #b, text=Foo"; a_value := JStr "";
       a_description := JStr "Click"; a_waitFor := JNull; a_timeout := JNum 30000 |}
    ".a, #b, text=Foo" empty_state eq_refl) [".a"] "#b" ["text=Foo"]
    eq_refl eq_refl eq_refl))).
  reflexivity.
Defined.

(* ------------------------------------------------------------------ *)
(** ** [executeStep] *)

Lemma takeScreenshot_eq pg sid id kind st :
  takeScreenshot pg sid id kind st =
  (Ok (if pg_screenshot pg
       then Some ("/screenshots/" ++ sid ++ "_" ++ id ++ "_" ++ kind ++ ".png")%string
       else None),
   add_trace st [EScreenshot (sid ++ "_" ++ id ++ "_" ++ kind ++ ".png")%string]).
Proof. unfold takeScreenshot. destruct (pg_screenshot pg); reflexivity. Qed.

(** The outcome and the trace of one step, from those of its dispatch. *)
Lemma executeStep_unfold pg sid step st :
  let st1 := snd (updateStepStatus (sp_id step) "running" st) in
  let file := fun kind => (sid ++ "_" ++ sp_id step ++ "_" ++ kind ++ ".png")%string in
  st_trace (snd (executeStep pg sid step st)) =
    match dispatch pg sid (sp_id step) (sp_action step) st1 with
    | (Ok (_, None), st2) => st_trace st2 ++ [EScreenshot (file "step")]
    | (Ok (_, Some _), st2) => st_trace st2
    | (Err _, st2) => st_trace st2 ++ [EScreenshot (file "error")]
    end /\
  fst (executeStep pg sid step st) =
    match dispatch pg sid (sp_id step) (sp_action step) st1 with
    | (Ok (actual, _), _) =>
        Ok {| sr_stepId := sp_id step; sr_status := "passed"; sr_error := None;
              sr_actual := Some (match actual with
                                 | Some m => if String.eqb m "" then
                                               "Action completed successfully" else m
                                 | None => "Action completed successfully"
                                 end) |}
    | (Err e, _) =>
        Ok {| sr_stepId := sp_id step; sr_status := "failed";
              sr_error := Some e; sr_actual := None |}
    end.
Proof.
  cbv zeta.
  set (st1 := snd (updateStepStatus (sp_id step) "running" st)).
  assert (Hu : updateStepStatus (sp_id step) "running" st = (Ok tt, st1)) by reflexivity.
  unfold executeStep, step_body, catch_, bind. cbv beta. rewrite Hu. cbv iota beta.
  destruct (dispatch pg sid (sp_id step) (sp_action step) st1)
    as [[[actual [p|]]|e] st2]; unfold ret; cbv iota beta;
    rewrite ?takeScreenshot_eq; cbv iota beta; split; reflexivity.
Qed.

Lemma includes_prefix (b c : string) : includes (b ++ c) b = true.
Proof.
  destruct b; simpl.
  - destruct c; reflexivity.
  - rewrite Ascii.eqb_refl, prefixb_app. reflexivity.
Qed.

Ltac includes_solve :=
  repeat first [ apply includes_prefix | apply includes_app_r ].

Lemma dispatch_verify_title pg sid id a v st :
  a_type a = "verify" -> a_target a = JStr "title" -> a_value a = JStr v ->
  dispatch pg sid id a st =
  if includes (pg_title pg) v then
    (Ok (Some ("Title verification passed: " ++ dq ++ pg_title pg ++ dq ++ " contains "
               ++ dq ++ v ++ dq)%string, None), add_trace st [ETitle])
  else
    (Err ("Title verification failed: " ++ dq ++ pg_title pg ++ dq ++
          " does not contain " ++ dq ++ v ++ dq)%string, add_trace st [ETitle]).
Proof.
  destruct a as [t tgt val d w tm]; simpl. intros -> -> ->.
  unfold dispatch, executeVerify, bind, log, ret, throw. cbn -[includes].
  destruct (includes (pg_title pg) v); reflexivity.
Qed.

(** C7: a verify step on the title with expected value [v] passes exactly
    when the page title contains [v] as a (case-sensitive) substring; the
    passing result message contains both the title and [v], and the failing
    step's error contains the actual title. *)
Theorem verify_title_step (pg : page) (sid : string) (step : step_row) (v : string)
  (st : state) :
  a_type (sp_action step) = "verify" ->
  a_target (sp_action step) = JStr "title" ->
  a_value (sp_action step) = JStr v ->
  exists r, fst (executeStep pg sid step st) = Ok r /\
    (sr_status r = "passed" <-> includes (pg_title pg) v = true) /\
    (includes (pg_title pg) v = true ->
     exists m, sr_actual r = Some m /\ includes m (pg_title pg) = true /\ includes m v = true) /\
    (includes (pg_title pg) v = false ->
     sr_status r = "failed" /\
     exists e, sr_error r = Some e /\ includes e (pg_title pg) = true).
Proof.
  intros Ht Htg Hv.
  destruct (executeStep_unfold pg sid step st) as [_ Hfst].
  rewrite Hfst, (dispatch_verify_title pg sid _ _ v _ Ht Htg Hv).
  set (msg := ("Title verification passed: " ++ dq ++ pg_title pg ++ dq ++ " contains "
               ++ dq ++ v ++ dq)%string).
  assert (Hne : String.eqb msg "" = false) by reflexivity.
  destruct (includes (pg_title pg) v) eqn:E; cbv beta iota.
  - rewrite Hne. eexists. split; [reflexivity|]. cbn [sr_status sr_actual].
    split; [split; reflexivity|]. split; [|discriminate].
    intros _. exists msg. split; [reflexivity|]. unfold msg. split; includes_solve.
  - eexists. split; [reflexivity|]. cbn [sr_status sr_error].
    split; [split; discriminate|]. split; [discriminate|].
    intros _. split; [reflexivity|]. eexists. split; [reflexivity|]. includes_solve.
Qed.

Lemma verify_title_step_witness :
  let step := {| sp_id := "1"; sp_session := "S"; sp_number := 1;
                 sp_command := "Verify the title";
                 sp_action := {| a_type := "verify"; a_target := JStr "title";
                                 a_value := JStr "Nope"; a_description := JStr "Verify";
                                 a_waitFor := JNull; a_timeout := JNum 30000 |};
                 sp_status := "pending"; sp_actual := None; sp_error := None;
                 sp_screenshot := None |} in
  exists r, fst (executeStep sample_page "S" step empty_state) = Ok r /\
            sr_status r = "failed" /\
            exists e, sr_error r = Some e /\ includes e "Example Domain" = true.
Proof.
  cbv zeta.
  destruct (verify_title_step sample_page "S"
              {| sp_id := "1"; sp_session := "S"; sp_number := 1;
                 sp_command := "Verify the title";
                 sp_action := {| a_type := "verify"; a_target := JStr "title";
                                 a_value := JStr "Nope"; a_description := JStr "Verify";
                                 a_waitFor := JNull; a_timeout := JNum 30000 |};
                 sp_status := "pending"; sp_actual := None; sp_error := None;
                 sp_screenshot := None |} "Nope" empty_state eq_refl eq_refl eq_refl)
    as (r & Hr & _ & _ & Hfail).
  exists r. split; [exact Hr|]. apply Hfail. reflexivity.
Defined.

(* ------------------------------------------------------------------ *)
(** ** Screenshot captures *)

Lemma count_shots_app (l1 l2 : list event) :
  count_shots (l1 ++ l2) = count_shots l1 + count_shots l2.
Proof. induction l1 as [|e l1 IH]; [reflexivity|]. destruct e; simpl; rewrite ?IH; reflexivity. Qed.

Ltac sf_step :=
  match goal with
  | |- extends_by _ (bind _ _) => apply extends_bind
  | |- extends_by _ (catch_ _ _) => apply extends_catch
  | |- extends_by _ (ret _) => apply extends_ret
  | |- extends_by _ (throw _) => apply extends_throw
  | |- extends_by _ (log _) => apply extends_log
  | |- extends_by _ (call _ _ _) => apply extends_call
  | |- extends_by _ (as_string _ _) => apply extends_as_string
  | |- extends_by _ (modify_store _) => apply extends_modify
  | |- extends_by _ (try_selectors _ _ _) => apply extends_try_selectors
  | |- extends_by _ (waitForSelector _ _ _) => unfold waitForSelector
  | |- extends_by _ (candidates _) => unfold candidates
  | |- extends_by _ (match ?x with _ => _ end) => destruct x
  | |- forall _, _ => intro
  | |- count_shots _ = 0 => reflexivity
  | H1 : count_shots ?l1 = 0, H2 : count_shots ?l2 = 0 |- count_shots (?l1 ++ ?l2) = 0 =>
      rewrite count_shots_app, H1, H2; reflexivity
  | |- _ => progress cbv beta in *
  end.

Ltac shot_free_tac := unfold shot_free; repeat sf_step.

Lemma shot_free_executeNavigate pg a : shot_free (executeNavigate pg a).
Proof. unfold executeNavigate. shot_free_tac. Qed.

Lemma shot_free_executeClick pg a : shot_free (executeClick pg a).
Proof. unfold executeClick. shot_free_tac. Qed.

Lemma shot_free_executeType pg a : shot_free (executeType pg a).
Proof. unfold executeType. shot_free_tac. Qed.

Lemma shot_free_executeWait pg a : shot_free (executeWait pg a).
Proof. unfold executeWait. shot_free_tac. Qed.

Lemma shot_free_executeVerify pg a : shot_free (executeVerify pg a).
Proof. unfold executeVerify. shot_free_tac. Qed.

Lemma shot_free_executeScroll pg a : shot_free (executeScroll pg a).
Proof. unfold executeScroll. shot_free_tac. Qed.

Lemma shot_free_executeHover pg a : shot_free (executeHover pg a).
Proof. unfold executeHover. shot_free_tac. Qed.

Lemma shot_free_executeSelect pg a : shot_free (executeSelect pg a).
Proof. unfold executeSelect. shot_free_tac. Qed.

Lemma bind_ret_no_shot {A} (m : M A) (f : A -> option string) st :
  shot_free m ->
  exists ext, st_trace (snd (bind m (fun x => ret (f x, @None string)) st)) = st_trace st ++ ext /\
    count_shots ext = 0 /\
    match fst (bind m (fun x => ret (f x, @None string)) st) with
    | Ok (_, shot) => shot = None
    | Err _ => True
    end.
Proof.
  intros Hm. destruct (Hm st) as [ext [He Hc]]. exists ext. unfold bind.
  destruct (m st) as [[x|e] st']; simpl in *; auto.
Qed.

(** A dispatch other than [screenshot] captures nothing and returns no
    screenshot path. *)
Lemma dispatch_no_shot pg sid id a st :
  a_type a <> "screenshot" ->
  exists ext, st_trace (snd (dispatch pg sid id a st)) = st_trace st ++ ext /\
    count_shots ext = 0 /\
    match fst (dispatch pg sid id a st) with
    | Ok (_, shot) => shot = None
    | Err _ => True
    end.
Proof.
  intros Hs. unfold dispatch.
  destruct (String.eqb (a_type a) "navigate");
    [apply (bind_ret_no_shot _ (fun _ => None)), shot_free_executeNavigate|].
  destruct (String.eqb (a_type a) "click");
    [apply (bind_ret_no_shot _ (fun _ => None)), shot_free_executeClick|].
  destruct (String.eqb (a_type a) "type");
    [apply (bind_ret_no_shot _ (fun _ => None)), shot_free_executeType|].
  destruct (String.eqb (a_type a) "wait");
    [apply (bind_ret_no_shot _ (fun _ => None)), shot_free_executeWait|].
  destruct (String.eqb (a_type a) "verify");
    [apply (bind_ret_no_shot _ Some), shot_free_executeVerify|].
  destruct (String.eqb (a_type a) "scroll");
    [apply (bind_ret_no_shot _ (fun _ => None)), shot_free_executeScroll|].
  destruct (String.eqb (a_type a) "hover");
    [apply (bind_ret_no_shot _ (fun _ => None)), shot_free_executeHover|].
  destruct (String.eqb (a_type a) "select");
    [apply (bind_ret_no_shot _ (fun _ => None)), shot_free_executeSelect|].
  destruct (String.eqb (a_type a) "screenshot") eqn:E;
    [apply String.eqb_eq in E; contradiction|].
  exists []. rewrite app_nil_r. simpl. auto.
Qed.

Lemma dispatch_screenshot pg sid id a st :
  a_type a = "screenshot" ->
  dispatch pg sid id a st =
  (Ok (None, if pg_screenshot pg
             then Some ("/screenshots/" ++ sid ++ "_" ++ id ++ "_step.png")%string
             else None),
   add_trace st [EScreenshot (sid ++ "_" ++ id ++ "_step.png")%string]).
Proof.
  intros Ht. unfold dispatch. rewrite Ht. cbn -[takeScreenshot].
  unfold bind. rewrite takeScreenshot_eq. reflexivity.
Qed.

(** Only the [screenshot] dispatch looks at whether a capture succeeds. *)
Lemma dispatch_with_screenshot pg b sid id a :
  a_type a <> "screenshot" ->
  dispatch (with_screenshot pg b) sid id a = dispatch pg sid id a.
Proof.
  intros Hs. unfold dispatch.
  repeat match goal with
         | |- context [if String.eqb (a_type a) ?k then _ else _] =>
             destruct (String.eqb (a_type a) k) eqn:?; [try reflexivity|]
         end.
  - match goal with H : String.eqb (a_type a) "screenshot" = true |- _ =>
      apply String.eqb_eq in H; contradiction end.
  - reflexivity.
Qed.

(** C9 (counterexample): a successful explicit [screenshot] step captures
    once in total; no capture follows the action. *)
Lemma screenshot_step_single_capture :
  let step := {| sp_id := "1"; sp_session := "S"; sp_number := 1;
                 sp_command := "Take a screenshot";
                 sp_action := {| a_type := "screenshot"; a_target := JStr "";
                                 a_value := JStr ""; a_description := JStr "Screenshot";
                                 a_waitFor := JNull; a_timeout := JNum 30000 |};
                 sp_status := "pending"; sp_actual := None; sp_error := None;
                 sp_screenshot := None |} in
  st_trace (snd (executeStep sample_page "S" step empty_state)) = [EScreenshot "S_1_step.png"] /\
  option_map sr_status (match fst (executeStep sample_page "S" step empty_state) with
                        | Ok r => Some r | Err _ => None end) = Some "passed".
Proof. vm_compute. split; reflexivity. Qed.

(** C9 (as amended): every executed step captures exactly one screenshot
    after its action, pass or fail, except an explicit [screenshot] step,
    whose own capture stands in for the one after the action when it
    succeeds (one capture) and is followed by a second attempt when it
    fails (two).  Whether captures succeed never changes the step's
    result. *)
Theorem step_screenshot_capture (pg : page) (sid : string) (step : step_row) (st : state) :
  (exists ext, st_trace (snd (executeStep pg sid step st)) = st_trace st ++ ext /\
     count_shots ext =
       if String.eqb (a_type (sp_action step)) "screenshot" && negb (pg_screenshot pg)
       then 2 else 1) /\
  (forall b, fst (executeStep (with_screenshot pg b) sid step st) =
             fst (executeStep pg sid step st)).
Proof.
  destruct (executeStep_unfold pg sid step st) as [Htr Hfst].
  assert (H1 : st_trace (snd (updateStepStatus (sp_id step) "running" st)) = st_trace st)
    by reflexivity.
  split.
  - destruct (String.eqb (a_type (sp_action step)) "screenshot") eqn:Es.
    + apply String.eqb_eq in Es.
      rewrite (dispatch_screenshot pg sid (sp_id step) _ _ Es) in Htr.
      destruct (pg_screenshot pg); cbv iota beta in Htr; unfold add_trace in Htr;
        cbn [st_trace] in Htr; rewrite H1 in Htr.
      * eexists. split; [exact Htr|reflexivity].
      * eexists. split; [rewrite Htr, <- app_assoc; reflexivity|reflexivity].
    + assert (Hne : a_type (sp_action step) <> "screenshot").
      { intros E. rewrite E in Es. discriminate Es. }
      destruct (dispatch_no_shot pg sid (sp_id step) (sp_action step)
                  (snd (updateStepStatus (sp_id step) "running" st)) Hne)
        as (ext & He & Hc & Hsh).
      rewrite H1 in He.
      destruct (dispatch pg sid (sp_id step) (sp_action step)
                  (snd (updateStepStatus (sp_id step) "running" st)))
        as [[[actual shot]|e] st2]; simpl in He, Hsh; [subst shot|];
        eexists;
        (split; [rewrite Htr, He, <- app_assoc; reflexivity|]);
        rewrite count_shots_app, Hc; reflexivity.
  - intros b.
    destruct (executeStep_unfold (with_screenshot pg b) sid step st) as [_ Hfst'].
    rewrite Hfst', Hfst.
    destruct (String.eqb (a_type (sp_action step)) "screenshot") eqn:Es.
    + apply String.eqb_eq in Es.
      rewrite !(dispatch_screenshot _ sid (sp_id step) _ _ Es). reflexivity.
    + assert (Hne : a_type (sp_action step) <> "screenshot").
      { intros E. rewrite E in Es. discriminate Es. }
      rewrite (dispatch_with_screenshot pg b sid (sp_id step) _ Hne). reflexivity.
Qed.

(* ------------------------------------------------------------------ *)
(** ** The step loop and the routes *)

(** [executeStep] always resolves, with a result for its own step. *)
Lemma executeStep_ok pg sid step st :
  exists r, fst (executeStep pg sid step st) = Ok r /\ sr_stepId r = sp_id step.
Proof.
  destruct (executeStep_unfold pg sid step st) as [_ H]. rewrite H.
  destruct (dispatch pg sid (sp_id step) (sp_action step)
              (snd (updateStepStatus (sp_id step) "running" st)))
    as [[[actual shot]|e] st2]; eexists; split; reflexivity.
Qed.

(** Since [result.critical] is never set, [executeTest] runs every step it
    is given and resolves with one result per step, in order. *)
Lemma executeTest_ok pg sid stps st :
  exists rs, fst (executeTest pg sid stps st) = Ok rs /\ map sr_stepId rs = map sp_id stps.
Proof.
  revert st. induction stps as [|step rest IH]; intros st.
  - exists []. split; reflexivity.
  - cbn [executeTest]. unfold bind at 1.
    destruct (executeStep_ok pg sid step st) as (r & Hr & Hid).
    destruct (executeStep pg sid step st) as [r0 st1]. cbn [fst] in Hr. subst r0.
    unfold sr_critical. cbn [truthy]. rewrite andb_false_r.
    unfold bind. destruct (IH st1) as (rs & Hrs & Hids).
    destruct (executeTest pg sid rest st1) as [r1 st2]. cbn [fst] in Hrs. subst r1.
    exists (r :: rs). split; [reflexivity|]. cbn [map]. rewrite Hid, Hids. reflexivity.
Qed.

Lemma set_status_absent sid x db :
  find_session sid db = None -> set_session_status sid x db = db.
Proof.
  destruct db as [ss sps]. unfold find_session, set_session_status, map_session.
  cbn [sessions steps]. intros H. f_equal.
  induction ss as [|r ss IH]; [reflexivity|].
  cbn [find] in H. cbn [map].
  destruct (String.eqb (ss_id r) sid); [discriminate H|]. rewrite (IH H). reflexivity.
Qed.

Lemma find_set_status sid x db :
  option_map (fun _ => tt) (find_session sid (set_session_status sid x db)) =
  option_map (fun _ => tt) (find_session sid db).
Proof.
  destruct db as [ss sps]. unfold find_session, set_session_status, map_session.
  cbn [sessions steps].
  induction ss as [|r ss IH]; [reflexivity|].
  cbn [map find]. destruct (String.eqb (ss_id r) sid) eqn:E; cbn [ss_id].
  - rewrite E. reflexivity.
  - rewrite E. exact IH.
Qed.

Lemma set_status_twice sid x y db :
  set_session_status sid y (set_session_status sid x db) = set_session_status sid y db.
Proof.
  destruct db as [ss sps]. unfold set_session_status, map_session. cbn [sessions steps].
  f_equal. rewrite map_map. apply map_ext. intros r.
  destruct (String.eqb (ss_id r) sid) eqn:E; cbn [ss_id ss_name ss_total ss_passed ss_failed];
    rewrite E; reflexivity.
Qed.

Lemma session_steps_set_status sid x db :
  session_steps sid (set_session_status sid x db) = session_steps sid db.
Proof. reflexivity. Qed.

(** C1 (code bug): a failing [navigate] as the first step does not abort
    the run.  On [sample_page], where [bad-url] cannot be reached, the
    session [navigate(bad-url), click(#b), verify(title, Example)] ends with
    step statuses failed, passed, passed: no step is left ['pending'], and
    the click and the title read after the failed navigation take place. *)
Theorem navigate_failure_does_not_abort :
  let st := snd (execute_route sample_page "S" abort_state) in
  step_statuses "S" (st_store st) = ["failed"; "passed"; "passed"] /\
  pending_steps "S" (st_store st) = 0 /\
  option_map ss_status (find_session "S" (st_store st)) = Some "failed" /\
  In (EClick "#b" (JNum 30000)) (st_trace st) /\ In ETitle (st_trace st).
Proof.
  vm_compute. split; [reflexivity|]. split; [reflexivity|]. split; [reflexivity|].
  split; [right; right; right; left; reflexivity|].
  right; right; right; right; right; left; reflexivity.
Qed.

(** C2 (counterexample): a session that has already run and ended ['failed']
    is executed again: the route answers with a result for each of its
    three steps instead of refusing. *)
Lemma execute_reruns_finished_session :
  let st := snd (execute_route sample_page "S" abort_state) in
  option_map ss_status (find_session "S" (st_store st)) = Some "failed" /\
  match fst (execute_route sample_page "S" st) with
  | Ok (ExecDone _ _ rs _ _ _) => length rs = 3
  | _ => False
  end.
Proof. vm_compute. split; reflexivity. Qed.

(** C2 (as amended): [POST /execute/:sessionId] does not look at the
    session's status: rewriting the stored status to any value changes
    neither the answer nor the final state, so a session in any status
    (['pending'] as created, ['running'], ['passed'] or ['failed']) is run
    again.  The only refusal is 404, exactly when no session has the id. *)
Theorem execute_route_ignores_status (pg : page) (sid status : string) (st : state) :
  execute_route pg sid {| st_store := set_session_status sid status (st_store st);
                          st_trace := st_trace st |} = execute_route pg sid st /\
  (fst (execute_route pg sid st) = Ok Exec404 <-> find_session sid (st_store st) = None).
Proof.
  split.
  - unfold execute_route, catch_, bind, get_store, modify_store. cbn [st_store st_trace].
    pose proof (find_set_status sid status (st_store st)) as Hf.
    destruct (find_session sid (st_store st)) eqn:E1;
      destruct (find_session sid (set_session_status sid status (st_store st))) eqn:E2;
      try discriminate Hf.
    + cbn [st_store st_trace].
      rewrite session_steps_set_status, set_status_twice. reflexivity.
    + rewrite (set_status_absent sid status (st_store st) E1). destruct st. reflexivity.
  - unfold execute_route, catch_, bind, get_store, modify_store. cbn [st_store st_trace].
    destruct (find_session sid (st_store st)) eqn:E1; [|split; reflexivity].
    split; [|discriminate].
    match goal with
    | |- context [executeTest pg sid ?l ?s0] =>
        destruct (executeTest_ok pg sid l s0) as (rs & Hrs & _);
        destruct (executeTest pg sid l s0) as [r1 st2]
    end.
    cbn [fst] in Hrs. subst r1. cbn [fst]. discriminate.
Qed.

(** C3 (code bug): a command whose translation fails is counted in
    [total_steps] but never stored as a step.  Creating a session from a
    translatable navigation and an untranslatable hover, with the language
    capability down, answers with the second step ['failed']; after the
    execution the session has [total_steps = 2] while passed, failed and
    pending steps add up to 1, and the session ends ['passed']. *)
Theorem failed_translation_not_counted :
  let created := create_route step_uuid llm_down "S" "Demo" demo_commands empty_state in
  let st := snd (execute_route sample_page "S" (snd created)) in
  match fst created with
  | Ok (Created _ vs) => map v_status vs = ["pending"; "failed"]
  | _ => False
  end /\
  match find_session "S" (st_store st) with
  | Some r => ss_total r = 2 /\
              ss_passed r + ss_failed r + pending_steps "S" (st_store st) = 1 /\
              ss_status r = "passed"
  | None => False
  end.
Proof. vm_compute. repeat split; reflexivity. Qed.

(* ------------------------------------------------------------------ *)
(** ** Further properties of the code *)

Lemma lower_ascii_idem (c : ascii) : lower_ascii (lower_ascii c) = lower_ascii c.
Proof.
  unfold lower_ascii at 2 3.
  destruct (Nat.leb 65 (nat_of_ascii c) && Nat.leb (nat_of_ascii c) 90) eqn:E.
  - apply andb_prop in E as [E1 E2]. apply Nat.leb_le in E1, E2.
    unfold lower_ascii. rewrite nat_ascii_embedding by lia.
    destruct (Nat.leb 65 (nat_of_ascii c + 32) && Nat.leb (nat_of_ascii c + 32) 90) eqn:E3;
      [|reflexivity].
    apply andb_prop in E3 as [_ E3]. apply Nat.leb_le in E3. lia.
  - unfold lower_ascii. rewrite E. reflexivity.
Qed.

Lemma toLowerCase_idem (s : string) : toLowerCase (toLowerCase s) = toLowerCase s.
Proof. induction s as [|c s IH]; simpl; [reflexivity|]. rewrite lower_ascii_idem, IH. reflexivity. Qed.

Lemma toLowerCase_empty (s : string) : toLowerCase s = "" <-> s = "".
Proof. destruct s; simpl; split; intros H; congruence. Qed.

(** [getBrowser] with [process.env.BROWSER_TYPE || 'chromium']: an unset or
    empty variable selects Chromium, and the choice does not depend on the
    case of the variable's value. *)
Theorem browser_of_env_ignores_case (t : string) :
  browser_of_env None = chromium /\ browser_of_env (Some "") = chromium /\
  browser_of_env (Some (toLowerCase t)) = browser_of_env (Some t).
Proof.
  split; [reflexivity|]. split; [reflexivity|].
  unfold browser_of_env.
  destruct (String.eqb t "") eqn:E.
  - apply String.eqb_eq in E. rewrite E. reflexivity.
  - assert (E' : String.eqb (toLowerCase t) "" = false).
    { apply String.eqb_neq. intros H. apply (proj1 (toLowerCase_empty t)) in H. rewrite H in E. discriminate E. }
    rewrite E'. unfold getBrowser. rewrite toLowerCase_idem. reflexivity.
Qed.

(* split and trim *)
Lemma split_comma_ne (s : string) : split_comma s <> [].
Proof.
  induction s as [|c s IH]; simpl; [discriminate|].
  destruct (split_comma s) as [|w ws]; [congruence|].
  destruct (Ascii.eqb c ","%char); discriminate.
Qed.

Lemma split_comma_join (s : string) : String.concat "," (split_comma s) = s.
Proof.
  induction s as [|c s IH]; simpl; [reflexivity|].
  pose proof (split_comma_ne s) as Hne.
  destruct (split_comma s) as [|w ws]; [congruence|].
  destruct (Ascii.eqb c ","%char) eqn:E.
  - apply Ascii.eqb_eq in E. subst c. destruct ws; simpl in *; rewrite IH; reflexivity.
  - destruct ws; simpl in *; rewrite IH; reflexivity.
Qed.

Lemma split_comma_pieces (s : string) :
  Forall (fun w => all_chars (fun c => negb (Ascii.eqb c ","%char)) w = true) (split_comma s).
Proof.
  induction s as [|c s IH]; simpl; [repeat constructor|].
  pose proof (split_comma_ne s) as Hne.
  destruct (split_comma s) as [|w ws]; [congruence|].
  inversion IH as [|? ? Hw Hws]; subst.
  destruct (Ascii.eqb c ","%char) eqn:E.
  - constructor; [reflexivity|]. constructor; assumption.
  - constructor; [|assumption]. simpl. rewrite E, Hw. reflexivity.
Qed.

Lemma list_ascii_of_string_app (a b : string) :
  list_ascii_of_string (a ++ b) = list_ascii_of_string a ++ list_ascii_of_string b.
Proof. induction a; simpl; [reflexivity|]. rewrite IHa. reflexivity. Qed.

Lemma string_of_list_ascii_app (a b : list ascii) :
  string_of_list_ascii (a ++ b) = (string_of_list_ascii a ++ string_of_list_ascii b)%string.
Proof. induction a; simpl; [reflexivity|]. rewrite IHa. reflexivity. Qed.

Lemma rev_string_app (a b : string) :
  rev_string (a ++ b) = (rev_string b ++ rev_string a)%string.
Proof.
  unfold rev_string. rewrite list_ascii_of_string_app, rev_app_distr, string_of_list_ascii_app.
  reflexivity.
Qed.

Lemma rev_string_involutive (s : string) : rev_string (rev_string s) = s.
Proof.
  unfold rev_string. rewrite list_ascii_of_string_of_list_ascii, rev_involutive.
  apply string_of_list_ascii_of_string.
Qed.

Lemma rev_string_empty (s : string) : rev_string s = "" -> s = "".
Proof.
  intros H. rewrite <- (rev_string_involutive s), H. reflexivity.
Qed.

Lemma trim_start_first (s : string) : starts_space (trim_start s) = false.
Proof.
  induction s as [|c s IH]; simpl; [reflexivity|].
  destruct (is_space c) eqn:E; [exact IH|]. simpl. exact E.
Qed.

Lemma trim_start_suffix (s : string) : exists p, s = (p ++ trim_start s)%string.
Proof.
  induction s as [|c s IH]; simpl; [exists ""; reflexivity|].
  destruct (is_space c).
  - destruct IH as [p Hp]. exists (String c p). simpl. f_equal. exact Hp.
  - exists "". reflexivity.
Qed.

Lemma starts_space_app (a b : string) :
  a <> "" -> starts_space (a ++ b) = starts_space a.
Proof. destruct a; [congruence|reflexivity]. Qed.

Lemma trim_no_edge_space (s : string) : no_edge_space (trim s) = true.
Proof.
  unfold no_edge_space, trim. rewrite rev_string_involutive, trim_start_first.
  simpl. rewrite andb_true_r.
  set (x := trim_start s).
  destruct (trim_start_suffix (rev_string x)) as [q Hq].
  set (y := trim_start (rev_string x)) in *.
  assert (Hx : x = (rev_string y ++ rev_string q)%string).
  { rewrite <- (rev_string_involutive x), Hq, rev_string_app. reflexivity. }
  destruct (String.eqb (rev_string y) "") eqn:Ey.
  - apply String.eqb_eq in Ey. rewrite Ey. reflexivity.
  - apply String.eqb_neq in Ey.
    rewrite <- (starts_space_app _ (rev_string q) Ey), <- Hx.
    unfold x. rewrite trim_start_first. reflexivity.
Qed.

(** The selector candidates of [executeClick] and [executeType]
    ([target.split(',').map(s => s.trim())]) are the comma-free pieces of
    the target, which join back to it with commas, each trimmed; no
    candidate starts or ends with white space. *)
Theorem candidates_of_pieces (t : string) :
  exists pieces,
    candidates_of t = map trim pieces /\
    String.concat "," pieces = t /\
    Forall (fun w => all_chars (fun c => negb (Ascii.eqb c ","%char)) w = true) pieces /\
    Forall (fun sel => no_edge_space sel = true) (candidates_of t).
Proof.
  exists (split_comma t). split; [reflexivity|]. split; [apply split_comma_join|].
  split; [apply split_comma_pieces|].
  unfold candidates_of. apply Forall_forall. intros sel Hin.
  apply in_map_iff in Hin as [w [<- _]]. apply trim_no_edge_space.
Qed.

Lemma string_app_nil_r (s : string) : (s ++ "")%string = s.
Proof. induction s; simpl; [reflexivity|]. rewrite IHs. reflexivity. Qed.

Lemma string_app_assoc (a b c : string) : ((a ++ b) ++ c)%string = (a ++ b ++ c)%string.
Proof. induction a; simpl; [reflexivity|]. rewrite IHa. reflexivity. Qed.

Lemma all_chars_app (p : ascii -> bool) (a b : string) :
  all_chars p (a ++ b) = all_chars p a && all_chars p b.
Proof. induction a; simpl; [reflexivity|]. rewrite IHa, andb_assoc. reflexivity. Qed.

Lemma split_comma_app (a s : string) :
  all_chars no_comma a = true ->
  split_comma (a ++ s) =
  match split_comma s with w :: ws => (a ++ w)%string :: ws | [] => [a] end.
Proof.
  induction a as [|c a IH]; intros H; simpl.
  - pose proof (split_comma_ne s). destruct (split_comma s); [congruence|reflexivity].
  - simpl in H. apply andb_prop in H as [Hc Ha]. rewrite (IH Ha).
    pose proof (split_comma_ne s) as Hne.
    destruct (split_comma s) as [|w ws]; [congruence|].
    unfold no_comma in Hc. apply negb_true_iff in Hc. rewrite Hc. reflexivity.
Qed.

Lemma split_comma_single (a : string) : all_chars no_comma a = true -> split_comma a = [a].
Proof.
  intros H. rewrite <- (string_app_nil_r a), (split_comma_app a "" H). reflexivity.
Qed.

Lemma lower_ascii_no_comma (c : ascii) : no_comma c = true -> no_comma (lower_ascii c) = true.
Proof.
  unfold lower_ascii, no_comma. intros H.
  destruct (Nat.leb 65 (nat_of_ascii c) && Nat.leb (nat_of_ascii c) 90) eqn:E; [|exact H].
  apply andb_prop in E as [E1 E2]. apply Nat.leb_le in E1, E2.
  apply negb_true_iff, Ascii.eqb_neq. intros Heq.
  assert (Hn : nat_of_ascii (ascii_of_nat (nat_of_ascii c + 32)) = nat_of_ascii ","%char)
    by (rewrite Heq; reflexivity).
  rewrite nat_ascii_embedding in Hn by lia.
  change (nat_of_ascii ","%char) with 44 in Hn. lia.
Qed.

Lemma toLowerCase_no_comma (s : string) :
  all_chars no_comma s = true -> all_chars no_comma (toLowerCase s) = true.
Proof.
  induction s as [|c s IH]; simpl; [auto|]. intros H. apply andb_prop in H as [Hc Hs].
  rewrite lower_ascii_no_comma, IH; auto.
Qed.

Lemma trim_start_id (s : string) : starts_space s = false -> trim_start s = s.
Proof. destruct s; simpl; [reflexivity|]. intros H. rewrite H. reflexivity. Qed.

Lemma trim_id (s : string) :
  starts_space s = false -> starts_space (rev_string s) = false -> trim s = s.
Proof.
  intros H1 H2. unfold trim. rewrite (trim_start_id s H1), (trim_start_id _ H2).
  apply rev_string_involutive.
Qed.

Lemma rev_string_snoc (s : string) (c : ascii) :
  rev_string (s ++ String c "") = String c (rev_string s).
Proof. rewrite rev_string_app. reflexivity. Qed.

(** A fallback click action, whose target joins two selectors with a comma,
    is probed as exactly those two selectors by the executor when the
    button text (the first quoted text, or ['button']) holds no comma. *)
Theorem fallback_click_candidates (command : string) :
  includes (toLowerCase command) "click" = true ->
  let b := match extractQuotedText command with Some t => t | None => "button" end in
  all_chars no_comma b = true ->
  exists a t, getFallbackAction command = Some a /\ a_type a = "click" /\
    a_target a = JStr t /\
    candidates_of t = [("button:has-text('" ++ b ++ "')")%string;
                       ("[data-testid*='" ++ toLowerCase b ++ "']")%string].
Proof.
  intros Hc b Hb.
  unfold getFallbackAction. rewrite Hc. fold b.
  eexists. eexists. split; [reflexivity|]. split; [reflexivity|]. split; [reflexivity|].
  set (lb := toLowerCase b).
  assert (Ht : ("button:has-text('" ++ b ++ "'), [data-testid*='" ++ lb ++ "']")%string =
               (("button:has-text('" ++ b ++ "')") ++
                String ","%char (" [data-testid*='" ++ lb ++ "']"))%string).
  { rewrite !string_app_assoc. reflexivity. }
  rewrite Ht. unfold candidates_of.
  rewrite split_comma_app.
  2:{ rewrite !all_chars_app, Hb. reflexivity. }
  assert (Hs : forall r, split_comma (String ","%char r) =
                         match split_comma r with
                         | [] => [String ","%char ""]
                         | w :: ws => "" :: w :: ws
                         end) by reflexivity.
  rewrite Hs.
  rewrite (split_comma_single (" [data-testid*='" ++ lb ++ "']")).
  2:{ rewrite !all_chars_app. unfold lb. rewrite toLowerCase_no_comma by exact Hb. reflexivity. }
  simpl map. rewrite string_app_nil_r. f_equal.
  - apply trim_id; [reflexivity|].
    replace ("button:has-text('" ++ b ++ "')")%string
      with (("button:has-text('" ++ b ++ "'") ++ String ")"%char "")%string
      by (rewrite !string_app_assoc; reflexivity).
    rewrite rev_string_snoc. reflexivity.
  - f_equal. transitivity (trim ("[data-testid*='" ++ lb ++ "']")); [reflexivity|].
    apply trim_id; [reflexivity|].
    replace ("[data-testid*='" ++ lb ++ "']")%string
      with (("[data-testid*='" ++ lb ++ "'") ++ String "]"%char "")%string
      by (rewrite !string_app_assoc; reflexivity).
    rewrite rev_string_snoc. reflexivity.
Qed.

Lemma substring_full (s : string) (m : nat) : String.length s <= m -> substring 0 m s = s.
Proof.
  revert m. induction s as [|c s IH]; intros [|m] H; simpl in *; try lia; try reflexivity.
  rewrite IH by lia. reflexivity.
Qed.

Lemma substring_after (p r : string) (m : nat) :
  substring (String.length p) m (p ++ r) = substring 0 m r.
Proof. induction p; simpl; [reflexivity|]. exact IHp. Qed.

Lemma string_length_app (a b : string) :
  String.length (a ++ b) = String.length a + String.length b.
Proof. induction a; simpl; [reflexivity|]. rewrite IHa. reflexivity. Qed.

Lemma prefixb_spec (p s : string) : prefixb p s = true -> exists r, s = (p ++ r)%string.
Proof.
  revert s. induction p as [|c p IH]; intros s H; [exists s; reflexivity|].
  destruct s as [|d s]; [discriminate H|]. simpl in H.
  apply andb_prop in H as [Hc Hp]. apply Ascii.eqb_eq in Hc. subst d.
  destruct (IH s Hp) as [r ->]. exists r. reflexivity.
Qed.

Lemma scheme_spec (sch s u : string) :
  (if prefixb sch s then
     match span (fun c => negb (is_space c))
                (substring (String.length sch) (String.length s) s) with
     | (String c w, _) => Some (sch ++ String c w)%string
     | _ => None
     end
   else None) = Some u ->
  exists w r, u = (sch ++ w)%string /\ s = (u ++ r)%string /\ w <> "" /\
    all_chars (fun c => negb (is_space c)) w = true /\
    match r with String c _ => is_space c = true | EmptyString => True end.
Proof.
  destruct (prefixb sch s) eqn:Hp; [|discriminate].
  destruct (prefixb_spec _ _ Hp) as [r0 ->].
  rewrite substring_after, substring_full by (rewrite string_length_app; lia).
  destruct (span (fun c => negb (is_space c)) r0) as [w r] eqn:Es.
  destruct (span_spec _ _ _ _ Es) as [-> [Hw Hr]].
  destruct w as [|c w]; [discriminate|]. intros H. injection H as <-.
  exists (String c w), r. split; [reflexivity|]. split; [symmetry; apply string_app_assoc|].
  split; [discriminate|]. split; [exact Hw|].
  destruct r as [|d r]; [exact I|]. apply negb_false_iff. exact Hr.
Qed.

Lemma url_at_spec (s u : string) :
  url_at s = Some u ->
  exists sch w r, (sch = "https://" \/ sch = "http://") /\ u = (sch ++ w)%string /\
    s = (u ++ r)%string /\ w <> "" /\
    all_chars (fun c => negb (is_space c)) w = true /\
    match r with String c _ => is_space c = true | EmptyString => True end.
Proof.
  unfold url_at. cbv zeta beta. intros H.
  match type of H with
  | match ?x with _ => _ end = _ => destruct x as [v|] eqn:E1
  end.
  - injection H as <-. destruct (scheme_spec _ _ _ E1) as (w & r & ? & ? & ? & ? & ?).
    exists "https://", w, r. split; [left; reflexivity|]. auto.
  - destruct (scheme_spec _ _ _ H) as (w & r & ? & ? & ? & ? & ?).
    exists "http://", w, r. split; [right; reflexivity|]. auto.
Qed.

Lemma extractUrl_sound (s u : string) :
  extractUrl s = Some u ->
  exists p r sch w,
    s = (p ++ u ++ r)%string /\ (sch = "https://" \/ sch = "http://") /\
    u = (sch ++ w)%string /\ w <> "" /\
    all_chars (fun c => negb (is_space c)) w = true /\
    match r with String c _ => is_space c = true | EmptyString => True end /\
    (forall k, k < String.length p -> url_at (drop_chars k s) = None).
Proof.
  revert u. induction s as [|c s IH]; intros u H.
  - discriminate H.
  - assert (E : extractUrl (String c s) =
                match url_at (String c s) with
                | Some v => Some v
                | None => extractUrl s
                end) by reflexivity.
    rewrite E in H. clear E.
    destruct (url_at (String c s)) as [v|] eqn:Eu.
    + injection H as <-.
      destruct (url_at_spec _ _ Eu) as (sch & w & r & Hsch & Hv & Hs & Hw & Hall & Hr).
      exists "", r, sch, w. repeat split; auto.
      intros k Hk. simpl in Hk. lia.
    + destruct (IH u H) as (p & r & sch & w & Hs & Hsch & Hv & Hw & Hall & Hr & Hleft).
      exists (String c p), r, sch, w. split; [rewrite Hs; reflexivity|].
      repeat split; auto.
      intros [|k] Hk; simpl in Hk |- *.
      * exact Eu.
      * apply Hleft. lia.
Qed.

Lemma scheme_hit (sch r : string) (c : ascii) :
  is_space c = false ->
  exists u,
    (if prefixb sch (sch ++ String c r) then
       match span (fun c => negb (is_space c))
                  (substring (String.length sch) (String.length (sch ++ String c r))
                             (sch ++ String c r)) with
       | (String c w, _) => Some (sch ++ String c w)%string
       | _ => None
       end
     else None) = Some u.
Proof.
  intros Hc. rewrite prefixb_app, substring_after, substring_full
    by (rewrite string_length_app; cbn; lia).
  cbn [span]. rewrite Hc. cbn [negb].
  destruct (span _ r). eexists. reflexivity.
Qed.

Lemma url_at_hit (sch r : string) (c : ascii) :
  (sch = "https://" \/ sch = "http://") -> is_space c = false ->
  exists u, url_at (sch ++ String c r) = Some u.
Proof.
  intros Hsch Hc. unfold url_at. cbv zeta beta.
  destruct Hsch as [-> | ->].
  - destruct (scheme_hit "https://" r c Hc) as [u Hu]. rewrite Hu. exists u. reflexivity.
  - match goal with
    | |- exists u, match ?x with Some _ => _ | None => _ end = _ => destruct x as [u|]
    end; [exists u; reflexivity|].
    apply scheme_hit. exact Hc.
Qed.

Lemma extractUrl_complete (p sch r : string) (c : ascii) :
  (sch = "https://" \/ sch = "http://") -> is_space c = false ->
  exists u, extractUrl (p ++ sch ++ String c r) = Some u.
Proof.
  intros Hsch Hc. induction p as [|d p IH].
  - destruct (url_at_hit sch r c Hsch Hc) as [u Hu].
    exists u. destruct sch as [|d' sch'].
    + destruct Hsch as [H|H]; discriminate H.
    + transitivity (match url_at (String d' sch' ++ String c r) with
                    | Some v => Some v
                    | None => extractUrl (sch' ++ String c r)
                    end); [reflexivity|].
      rewrite Hu. reflexivity.
  - assert (E : extractUrl (String d (p ++ sch ++ String c r)) =
                match url_at (String d (p ++ sch ++ String c r)) with
                | Some v => Some v
                | None => extractUrl (p ++ sch ++ String c r)
                end) by reflexivity.
    cbn [append]. rewrite E.
    destruct (url_at _) as [v|]; [exists v; reflexivity|exact IH].
Qed.

(** [extractUrl] finds a URL whenever the text contains [http://] or
    [https://] followed by a non-space character, and what it returns is
    the leftmost such occurrence: the scheme and the run of non-space
    characters after it, up to the next white space or the end, with no
    URL starting earlier. *)
Theorem extractUrl_spec (s : string) :
  (forall u, extractUrl s = Some u ->
   exists p r sch w,
     s = (p ++ u ++ r)%string /\ (sch = "https://" \/ sch = "http://") /\
     u = (sch ++ w)%string /\ w <> "" /\
     all_chars (fun c => negb (is_space c)) w = true /\
     match r with String c _ => is_space c = true | EmptyString => True end /\
     (forall k, k < String.length p -> url_at (drop_chars k s) = None)) /\
  (forall p sch c r, s = (p ++ sch ++ String c r)%string ->
     (sch = "https://" \/ sch = "http://") -> is_space c = false ->
     exists u, extractUrl s = Some u).
Proof.
  split.
  - intros u. apply extractUrl_sound.
  - intros p sch c r -> Hsch Hc. apply extractUrl_complete; assumption.
Qed.

Lemma extractUrl_spec_witness :
  extractUrl "Go to https://example.com now" = Some "https://example.com" /\
  exists p r sch w,
    "Go to https://example.com now" = (p ++ "https://example.com" ++ r)%string /\
    (sch = "https://" \/ sch = "http://") /\
    "https://example.com" = (sch ++ w)%string /\ w <> "" /\
    all_chars (fun c => negb (is_space c)) w = true /\
    match r with String c _ => is_space c = true | EmptyString => True end /\
    (forall k, k < String.length p -> url_at (drop_chars k "Go to https://example.com now") = None).
Proof.
  split; [reflexivity|].
  apply (proj1 (extractUrl_spec "Go to https://example.com now")). reflexivity.
Defined.

Lemma keeps_ret {A} (a : A) : keeps_store (ret a).
Proof. intros st. reflexivity. Qed.

Lemma keeps_throw {A} (e : string) : keeps_store (@throw A e).
Proof. intros st. reflexivity. Qed.

Lemma keeps_bind {A B} (m : M A) (f : A -> M B) :
  keeps_store m -> (forall a, keeps_store (f a)) -> keeps_store (bind m f).
Proof.
  intros Hm Hf st. unfold bind. specialize (Hm st).
  destruct (m st) as [[a|e] st1]; simpl in *; [rewrite Hf|]; exact Hm.
Qed.

Lemma keeps_catch {A} (m : M A) (h : string -> M A) :
  keeps_store m -> (forall e, keeps_store (h e)) -> keeps_store (catch_ m h).
Proof.
  intros Hm Hh st. unfold catch_. specialize (Hm st).
  destruct (m st) as [[a|e] st1]; simpl in *; [|rewrite Hh]; exact Hm.
Qed.

Lemma keeps_log (e : event) : keeps_store (log e).
Proof. intros st. reflexivity. Qed.

Lemma keeps_call (e : event) ok msg : keeps_store (call e ok msg).
Proof.
  unfold call. apply keeps_bind; [apply keeps_log|]. intros _.
  destruct ok; [apply keeps_ret|apply keeps_throw].
Qed.

Lemma keeps_as_string what v : keeps_store (as_string what v).
Proof. destruct v; (apply keeps_ret || apply keeps_throw). Qed.

Lemma keeps_try_selectors pg (act : string -> M unit) sels :
  (forall sel, keeps_store (act sel)) -> keeps_store (try_selectors pg act sels).
Proof.
  intros Hact. induction sels as [|sel rest IH]; simpl; [apply keeps_ret|].
  apply keeps_catch; [|intros; exact IH].
  apply keeps_bind; [apply keeps_call|intros _].
  apply keeps_bind; [apply Hact|intros _]. apply keeps_ret.
Qed.

Ltac ks_step :=
  match goal with
  | |- keeps_store (bind _ _) => apply keeps_bind
  | |- keeps_store (catch_ _ _) => apply keeps_catch
  | |- keeps_store (ret _) => apply keeps_ret
  | |- keeps_store (throw _) => apply keeps_throw
  | |- keeps_store (log _) => apply keeps_log
  | |- keeps_store (call _ _ _) => apply keeps_call
  | |- keeps_store (as_string _ _) => apply keeps_as_string
  | |- keeps_store (try_selectors _ _ _) => apply keeps_try_selectors
  | |- keeps_store (waitForSelector _ _ _) => unfold waitForSelector
  | |- keeps_store (candidates _) => unfold candidates
  | |- keeps_store (takeScreenshot _ _ _ _) => unfold takeScreenshot
  | |- keeps_store (executeNavigate _ _) => unfold executeNavigate
  | |- keeps_store (executeClick _ _) => unfold executeClick
  | |- keeps_store (executeType _ _) => unfold executeType
  | |- keeps_store (executeWait _ _) => unfold executeWait
  | |- keeps_store (executeVerify _ _) => unfold executeVerify
  | |- keeps_store (executeScroll _ _) => unfold executeScroll
  | |- keeps_store (executeHover _ _) => unfold executeHover
  | |- keeps_store (executeSelect _ _) => unfold executeSelect
  | |- keeps_store (match ?x with _ => _ end) => destruct x
  | |- keeps_store (if ?x then _ else _) => destruct x
  | |- forall _, _ => intro
  | |- _ => progress cbv beta zeta
  end.

Lemma keeps_dispatch pg sid id a : keeps_store (dispatch pg sid id a).
Proof. unfold dispatch. repeat ks_step. Qed.

Lemma executeStep_store pg sid step st :
  exists r shot,
    fst (executeStep pg sid step st) = Ok r /\
    st_store (snd (executeStep pg sid step st)) =
      st_store (snd (updateStepResult (sp_id step) r shot
                       (snd (updateStepStatus (sp_id step) "running" st)))) /\
    (sr_status r = "passed" \/ sr_status r = "failed").
Proof.
  set (st1 := snd (updateStepStatus (sp_id step) "running" st)).
  assert (Hu : updateStepStatus (sp_id step) "running" st = (Ok tt, st1)) by reflexivity.
  pose proof (keeps_dispatch pg sid (sp_id step) (sp_action step) st1) as Hk.
  unfold executeStep, step_body, catch_, bind. cbv beta. rewrite Hu. cbv iota beta.
  destruct (dispatch pg sid (sp_id step) (sp_action step) st1)
    as [[[actual [p|]]|e] st2]; cbn [snd] in Hk; unfold ret; cbv iota beta;
    rewrite ?takeScreenshot_eq; cbv iota beta;
    (eexists; eexists; split; [reflexivity|]);
    (split; [|first [left; reflexivity | right; reflexivity]]);
    unfold updateStepResult, modify_store, add_trace; cbn [snd st_store]; rewrite Hk;
    reflexivity.
Qed.

Lemma executeStep_map pg sid step st :
  exists r shot,
    fst (executeStep pg sid step st) = Ok r /\
    (sr_status r = "passed" \/ sr_status r = "failed") /\
    sessions (st_store (snd (executeStep pg sid step st))) = sessions (st_store st) /\
    steps (st_store (snd (executeStep pg sid step st))) =
      map (write_result (sp_id step) r shot) (steps (st_store st)).
Proof.
  destruct (executeStep_store pg sid step st) as (r & shot & Hf & Hs & Hst).
  exists r, shot. split; [exact Hf|]. split; [exact Hst|]. rewrite Hs.
  unfold updateStepResult, updateStepStatus, modify_store. cbn [snd st_store sessions steps].
  split; [reflexivity|].
  rewrite map_map. apply map_ext. intros row. unfold write_result.
  destruct (String.eqb (sp_id row) (sp_id step)) eqn:E; cbn [sp_id]; rewrite ?E; reflexivity.
Qed.

(** When [executeStep] resolves, its result has status [passed] or
    [failed]; of the store it has then only changed the rows with the step's
    id, whose status, actual result, error and screenshot are the result's
    (the intermediate [running] status is overwritten), and it has left the
    sessions alone.  (A rejected store write, which the embedding does not
    model, makes [executeStep] reject.) *)
Theorem executeStep_writes_result (pg : page) (sid : string) (step : step_row) (st : state) :
  let st' := snd (executeStep pg sid step st) in
  match fst (executeStep pg sid step st) with
  | Ok r =>
      (sr_status r = "passed" \/ sr_status r = "failed") /\
      sessions (st_store st') = sessions (st_store st) /\
      exists shot, steps (st_store st') =
        map (fun row => if String.eqb (sp_id row) (sp_id step) then
               {| sp_id := sp_id row; sp_session := sp_session row;
                  sp_number := sp_number row; sp_command := sp_command row;
                  sp_action := sp_action row; sp_status := sr_status r;
                  sp_actual := sr_actual r; sp_error := sr_error r; sp_screenshot := shot |}
             else row) (steps (st_store st))
  | Err _ => True
  end.
Proof.
  destruct (executeStep_map pg sid step st) as (r & shot & Hf & Hst & Hss & Hs).
  cbv zeta. rewrite Hf. split; [exact Hst|]. split; [exact Hss|].
  exists shot. exact Hs.
Qed.

Lemma executeTest_full pg sid stps st :
  exists rs f,
    fst (executeTest pg sid stps st) = Ok rs /\
    map sr_stepId rs = map sp_id stps /\
    Forall (fun r => sr_status r = "passed" \/ sr_status r = "failed") rs /\
    sessions (st_store (snd (executeTest pg sid stps st))) = sessions (st_store st) /\
    steps (st_store (snd (executeTest pg sid stps st))) = map f (steps (st_store st)) /\
    forall row, sp_id (f row) = sp_id row /\ sp_session (f row) = sp_session row /\
      (In (sp_id row) (map sp_id stps) ->
         sp_status (f row) = "passed" \/ sp_status (f row) = "failed") /\
      (~ In (sp_id row) (map sp_id stps) -> sp_status (f row) = sp_status row).
Proof.
  revert st. induction stps as [|step rest IH]; intros st.
  - exists [], (fun row => row). simpl. rewrite map_id.
    repeat split; auto. intros [].
  - destruct (executeStep_ok pg sid step st) as (r' & _ & Hid).
    destruct (executeStep_map pg sid step st) as (r & shot & Hr & Hst & Hss & Hs).
    cbn [executeTest]. unfold bind. cbv beta.
    destruct (executeStep pg sid step st) as [r0 st1] eqn:E. cbn [fst snd] in Hr, Hss, Hs.
    subst r0.
    unfold sr_critical. cbn [truthy]. rewrite andb_false_r.
    destruct (IH st1) as (rs & f & Hrs & Hids & Hall & Hss2 & Hs2 & Hf).
    destruct (executeTest pg sid rest st1) as [r1 st2]. cbn [fst snd] in *.
    subst r1. unfold ret. cbv beta iota. cbn [fst snd].
    assert (Hid' : sr_stepId r = sp_id step).
    { pose proof (executeStep_ok pg sid step st) as (r2 & H2 & H3). rewrite E in H2.
      cbn [fst] in H2. injection H2 as <-. exact H3. }
    exists (r :: rs), (fun row => f (write_result (sp_id step) r shot row)).
    split; [reflexivity|]. split; [cbn [map]; rewrite Hid', Hids; reflexivity|].
    split; [constructor; assumption|]. split; [rewrite Hss2; exact Hss|].
    split; [rewrite Hs2, Hs, map_map; reflexivity|].
    intros row. destruct (Hf (write_result (sp_id step) r shot row)) as (F1 & F2 & F3 & F4).
    unfold write_result in *.
    destruct (String.eqb (sp_id row) (sp_id step)) eqn:Ei; cbn [sp_id sp_session sp_status] in *.
    + apply String.eqb_eq in Ei.
      split; [exact F1|]. split; [exact F2|]. split.
      * intros _. destruct (in_dec string_dec (sp_id row) (map sp_id rest)) as [Hin|Hin];
          [apply F3; exact Hin|rewrite F4 by exact Hin; exact Hst].
      * intros Hn. exfalso. apply Hn. left. symmetry. exact Ei.
    + apply String.eqb_neq in Ei.
      split; [exact F1|]. split; [exact F2|]. split.
      * intros [Heq|Hin]; [congruence|]. apply F3. exact Hin.
      * intros Hn. apply F4. intros Hin. apply Hn. right. exact Hin.
Qed.

Lemma In_insert_by_number (x r : step_row) (l : list step_row) :
  In x (insert_by_number r l) <-> x = r \/ In x l.
Proof.
  induction l as [|h t IH]; simpl.
  - split; [intros [H|[]]; left; symmetry; exact H|intros [H|[]]; left; symmetry; exact H].
  - destruct (Nat.leb (sp_number r) (sp_number h)); simpl.
    + split; intros H; [destruct H as [H|H]; [left; symmetry; exact H|right; exact H]|].
      destruct H as [H|H]; [left; symmetry; exact H|right; exact H].
    + rewrite IH. split; intros H.
      * destruct H as [H|[H|H]]; [right; left; exact H|left; exact H|right; right; exact H].
      * destruct H as [H|[H|H]]; [right; left; exact H|left; exact H|right; right; exact H].
Qed.

Lemma In_fold_insert (x : step_row) (l : list step_row) :
  In x (fold_right insert_by_number [] l) <-> In x l.
Proof.
  induction l as [|h t IH]; simpl; [reflexivity|].
  rewrite In_insert_by_number, IH. split; intros [H|H]; auto.
Qed.

Lemma In_session_steps (x : step_row) (sid : string) (db : store) :
  In x (session_steps sid db) <-> In x (steps db) /\ sp_session x = sid.
Proof.
  unfold session_steps. rewrite In_fold_insert, filter_In, String.eqb_eq. reflexivity.
Qed.

Lemma find_map_session sid (g : session_row -> session_row) db :
  (forall r, ss_id (g r) = ss_id r) ->
  find_session sid (map_session sid g db) = option_map g (find_session sid db).
Proof.
  intros Hg. destruct db as [ss sps]. unfold find_session, map_session. cbn [sessions].
  induction ss as [|r ss IH]; [reflexivity|]. cbn [map find].
  destruct (String.eqb (ss_id r) sid) eqn:E; rewrite ?Hg, E; [reflexivity|exact IH].
Qed.

Lemma count_status_pf (rs : list step_result) :
  Forall (fun r => sr_status r = "passed" \/ sr_status r = "failed") rs ->
  count_status "passed" rs + count_status "failed" rs = length rs.
Proof.
  unfold count_status. induction 1 as [|r rs Hr _ IH]; [reflexivity|]. simpl.
  destruct Hr as [Hr|Hr]; rewrite Hr; simpl; lia.
Qed.

Lemma execute_route_found pg sid st s :
  find_session sid (st_store st) = Some s ->
  exists rs f,
    let stps := session_steps sid (st_store st) in
    let failed := count_status "failed" rs in
    let passed := count_status "passed" rs in
    let status := if Nat.ltb 0 failed then "failed" else "passed" in
    fst (execute_route pg sid st) = Ok (ExecDone sid status rs (length stps) passed failed) /\
    sessions (st_store (snd (execute_route pg sid st))) =
      sessions (set_session_result sid status passed failed
                  (set_session_status sid "running" (st_store st))) /\
    steps (st_store (snd (execute_route pg sid st))) = map f (steps (st_store st)) /\
    map sr_stepId rs = map sp_id stps /\
    Forall (fun r => sr_status r = "passed" \/ sr_status r = "failed") rs /\
    forall row, sp_id (f row) = sp_id row /\ sp_session (f row) = sp_session row /\
      (In (sp_id row) (map sp_id stps) ->
         sp_status (f row) = "passed" \/ sp_status (f row) = "failed").
Proof.
  intros Hf. unfold execute_route, catch_, bind, get_store, modify_store.
  cbn [st_store st_trace]. rewrite Hf. cbn [st_store st_trace].
  match goal with
  | |- context [executeTest pg sid ?l ?s0] =>
      destruct (executeTest_full pg sid l s0) as (rs & f & H1 & H2 & H3 & H4 & H5 & H6);
      destruct (executeTest pg sid l s0) as [r1 st2]
  end.
  cbn [fst snd] in *. subst r1. try rewrite session_steps_set_status in *.
  exists rs, f. cbv zeta. unfold ret. cbn [fst snd st_store].
  split; [reflexivity|].
  split; [unfold set_session_result, map_session; cbn [sessions]; rewrite H4; reflexivity|].
  split; [exact H5|]. split; [exact H2|]. split; [exact H3|].
  intros row. destruct (H6 row) as (F1 & F2 & F3 & _). auto.
Qed.

(** The answers of [POST /execute/:sessionId]: when it answers with a run,
    there is one result per stored step of the session in step-number
    order, [passedSteps + failedSteps = totalSteps], and the status is
    [failed] exactly when some step failed; when it answers 404, no session
    has the id and the state is unchanged.  (The 500 answers, on store or
    browser-launch errors, are not modelled and the statement says nothing
    about them.) *)
Theorem execute_route_response (pg : page) (sid : string) (st : state) :
  match fst (execute_route pg sid st) with
  | Ok (ExecDone sid' status results total passed failed) =>
      sid' = sid /\
      map sr_stepId results = map sp_id (session_steps sid (st_store st)) /\
      total = length results /\ passed + failed = total /\
      (status = "failed" /\ 0 < failed \/ status = "passed" /\ failed = 0)
  | Ok Exec404 => find_session sid (st_store st) = None /\ snd (execute_route pg sid st) = st
  | _ => True
  end.
Proof.
  destruct (find_session sid (st_store st)) as [s|] eqn:Ef.
  - destruct (execute_route_found pg sid st s Ef) as (rs & f & H1 & _ & _ & H2 & H3 & _).
    cbv zeta in *. rewrite H1.
    assert (Hl : length rs = length (session_steps sid (st_store st))).
    { rewrite <- (length_map sr_stepId rs), H2, length_map. reflexivity. }
    split; [reflexivity|]. split; [exact H2|]. split; [symmetry; exact Hl|].
    split; [rewrite <- Hl; apply count_status_pf; exact H3|].
    destruct (Nat.ltb 0 (count_status "failed" rs)) eqn:E.
    + left. apply Nat.ltb_lt in E. auto.
    + right. apply Nat.ltb_ge in E. split; [reflexivity|lia].
  - unfold execute_route, catch_, bind, get_store. cbn [st_store].
    rewrite Ef. split; reflexivity.
Qed.

(** After [POST /execute/:sessionId] answers with a run, every stored step
    of the session has status [passed] or [failed], and the session row holds
    the answer's status and its passed and failed counts. *)
Theorem execute_route_stores_outcome (pg : page) (sid : string) (st : state) :
  let st' := snd (execute_route pg sid st) in
  match fst (execute_route pg sid st) with
  | Ok (ExecDone _ status _ _ passed failed) =>
      Forall (fun row => sp_status row = "passed" \/ sp_status row = "failed")
             (session_steps sid (st_store st')) /\
      exists s, find_session sid (st_store st') = Some s /\
        ss_status s = status /\ ss_passed s = passed /\ ss_failed s = failed
  | _ => True
  end.
Proof.
  cbv zeta.
  destruct (find_session sid (st_store st)) as [s|] eqn:Ef.
  - destruct (execute_route_found pg sid st s Ef) as (rs & f & H1 & Hss & Hs & H2 & H3 & Hf).
    cbv zeta in *. rewrite H1. split.
    + apply Forall_forall. intros x Hx. apply In_session_steps in Hx as [Hx Hsx].
      rewrite Hs in Hx. apply in_map_iff in Hx as [row [<- Hrow]].
      destruct (Hf row) as (F1 & F2 & F3). apply F3.
      apply in_map. apply In_session_steps. split; [exact Hrow|]. rewrite <- F2. exact Hsx.
    + unfold find_session at 1. rewrite Hss. fold (find_session sid (set_session_result sid
        (if Nat.ltb 0 (count_status "failed" rs) then "failed" else "passed")
        (count_status "passed" rs) (count_status "failed" rs)
        (set_session_status sid "running" (st_store st)))).
      unfold set_session_result at 1. rewrite find_map_session by reflexivity.
      unfold set_session_status. rewrite find_map_session by reflexivity. rewrite Ef.
      eexists. split; [reflexivity|]. auto.
  - unfold execute_route, catch_, bind, get_store. cbn [st_store].
    rewrite Ef. exact I.
Qed.

(** [upload] passes [validateAction] (it is in [SUPPORTED_ACTIONS]), but
    [executeStep] has no case for it: such a step fails with
    ["Unsupported action type: upload"], and the only page call is the
    error screenshot. *)
Theorem upload_accepted_never_runs (r : raw_action) :
  r_type r = JStr "upload" ->
  exists a, validateAction (IObj r) = Ok a /\ a_type a = "upload" /\
    forall pg sid step st, sp_action step = a ->
      fst (executeStep pg sid step st) =
        Ok {| sr_stepId := sp_id step; sr_status := "failed";
              sr_error := Some "Unsupported action type: upload"; sr_actual := None |} /\
      st_trace (snd (executeStep pg sid step st)) =
        st_trace st ++ [EScreenshot (sid ++ "_" ++ sp_id step ++ "_error.png")%string].
Proof.
  intros Ht. unfold validateAction. rewrite Ht. cbn -[js_or].
  eexists. split; [reflexivity|]. split; [reflexivity|].
  intros pg sid step st Hs.
  destruct (executeStep_unfold pg sid step st) as [H1 H2]. cbv zeta in H1, H2.
  rewrite H1, H2. unfold dispatch. rewrite Hs. cbn. split; reflexivity.
Qed.

Lemma upload_accepted_never_runs_witness :
  exists a, validateAction (IObj {| r_type := JStr "upload"; r_target := JStr "#file";
                          r_value := JStr "a.txt"; r_description := JUndef;
                          r_waitFor := JUndef; r_timeout := JUndef |}) = Ok a /\
            a_type a = "upload".
Proof.
  destruct (upload_accepted_never_runs {| r_type := JStr "upload"; r_target := JStr "#file";
                          r_value := JStr "a.txt"; r_description := JUndef;
                          r_waitFor := JUndef; r_timeout := JUndef |} eq_refl)
    as (a & H1 & H2 & _).
  exists a. split; [exact H1|exact H2].
Defined.

Lemma truthy_js_or_empty (x : jsval) : truthy (js_or x (JStr "")) = truthy x.
Proof. unfold js_or. destruct (truthy x) eqn:E; [exact E|reflexivity]. Qed.

(** [validateAction] rejects a [navigate] or [verify] action exactly when
    both [value] and [target] are falsy; an accepted one keeps its type and
    has a truthy [value] or [target]. *)
Theorem validate_navigate_verify_operand (r : raw_action) (t : string) :
  r_type r = JStr t -> t = "navigate" \/ t = "verify" ->
  ((exists e, validateAction (IObj r) = Err e) <->
     truthy (r_value r) = false /\ truthy (r_target r) = false) /\
  forall a, validateAction (IObj r) = Ok a ->
    a_type a = t /\ (truthy (a_value a) = true \/ truthy (a_target a) = true).
Proof.
  intros Ht Ht'. unfold validateAction. rewrite Ht.
  destruct Ht' as [->| ->]; cbn -[js_or truthy];
    rewrite !truthy_js_or_empty;
    destruct (truthy (r_value r)) eqn:Ev, (truthy (r_target r)) eqn:Eg; cbn;
    (split; [split; [intros [e He]; try discriminate He; auto
                    |intros [H1 H2]; try discriminate H1; try discriminate H2; eexists; reflexivity]
            |intros a Ha; try discriminate Ha; injection Ha as <-; cbn;
             rewrite !truthy_js_or_empty; auto]).
Qed.

Lemma validate_navigate_verify_operand_witness :
  exists e, validateAction (IObj {| r_type := JStr "navigate"; r_target := JStr "";
                              r_value := JNull; r_description := JUndef;
                              r_waitFor := JUndef; r_timeout := JUndef |}) = Err e.
Proof.
  apply (proj2 (proj1 (validate_navigate_verify_operand
     {| r_type := JStr "navigate"; r_target := JStr ""; r_value := JNull;
        r_description := JUndef; r_waitFor := JUndef; r_timeout := JUndef |}
     "navigate" eq_refl (or_introl eq_refl)))).
  split; reflexivity.
Defined.

Ltac peel_char :=
  match goal with
  | |- context [match ?s with EmptyString => _ | String _ _ => _ end] =>
      is_var s; let c := fresh "c" in let s' := fresh "s" in
      destruct s as [|c s']; [try reflexivity|];
      destruct c as [[] [] [] [] [] [] [] []]; try reflexivity
  end.

Lemma executeVerify_other pg a sel :
  a_target a = JStr sel -> sel <> "title" ->
  executeVerify pg a =
    (log (EIsVisible sel) ;;;
     if negb (pg_isVisible pg sel) then throw ("Element not visible: " ++ sel)%string
     else if truthy (a_value a) then
       log (ETextContent sel) ;;;
       let text := pg_textContent pg sel in
       let v := js_to_string (a_value a) in
       if negb (includes text v) then
         throw ("Text verification failed: " ++ dq ++ text ++ dq ++
                " does not contain " ++ dq ++ v ++ dq)%string
       else ret ("Text verification passed: found " ++ dq ++ v ++ dq)%string
     else ret ("Element verification passed: " ++ sel ++ " is visible")%string).
Proof.
  intros Ha Hn. unfold executeVerify. rewrite Ha.
  do 5 peel_char.
  match goal with
  | |- context [match ?s with EmptyString => _ | String _ _ => _ end] =>
      destruct s; [exfalso; apply Hn; reflexivity|reflexivity]
  end.
Qed.

(** [executeVerify] on a selector target other than ['title'] succeeds
    exactly when the element is visible and either the expected value is
    falsy or the element's text contains [String(value)]; the text is read
    only then, and the store is untouched. *)
Theorem verify_element_outcome (pg : page) (a : action) (sel : string) (st : state) :
  a_target a = JStr sel -> sel <> "title" ->
  ((exists m, fst (executeVerify pg a st) = Ok m) <->
     pg_isVisible pg sel = true /\
     (truthy (a_value a) = false \/
      includes (pg_textContent pg sel) (js_to_string (a_value a)) = true)) /\
  st_store (snd (executeVerify pg a st)) = st_store st /\
  st_trace (snd (executeVerify pg a st)) =
    st_trace st ++ EIsVisible sel ::
      (if pg_isVisible pg sel && truthy (a_value a) then [ETextContent sel] else []).
Proof.
  intros Ha Hn. rewrite (executeVerify_other pg a sel Ha Hn).
  unfold bind, log, throw, ret. cbn [st_store st_trace fst snd].
  destruct (pg_isVisible pg sel), (truthy (a_value a));
    cbn [negb andb st_store st_trace fst snd];
    [destruct (includes (pg_textContent pg sel) (js_to_string (a_value a)));
       cbn [negb st_store st_trace fst snd]| | |];
    rewrite ?app_nil_r, <- ?app_assoc;
    (split; [split; [intros [m Hm]; try discriminate Hm; auto
                    |intros [H1 [H2|H2]]; try discriminate H1; try discriminate H2;
                     eexists; reflexivity]
            |split; reflexivity]).
Qed.

Lemma verify_element_outcome_witness :
  let pg := sample_page in
  let a := {| a_type := "verify"; a_target := JStr "#msg"; a_value := JStr "Welcome";
              a_description := JUndef; a_waitFor := JNull; a_timeout := JNum 30000 |} in
  let st := {| st_store := {| sessions := []; steps := [] |}; st_trace := [] |} in
  ((exists m, fst (executeVerify pg a st) = Ok m) <->
     pg_isVisible pg "#msg" = true /\
     (truthy (a_value a) = false \/
      includes (pg_textContent pg "#msg") (js_to_string (a_value a)) = true)).
Proof.
  cbv zeta.
  apply (verify_element_outcome sample_page
    {| a_type := "verify"; a_target := JStr "#msg"; a_value := JStr "Welcome";
       a_description := JUndef; a_waitFor := JNull; a_timeout := JNum 30000 |} "#msg"
    {| st_store := {| sessions := []; steps := [] |}; st_trace := [] |} eq_refl).
  discriminate.
Defined.

Lemma digit_char (d : nat) :
  d < 10 ->
  nat_of_ascii (ascii_of_nat (48 + d)) = 48 + d /\
  Nat.leb 48 (48 + d) && Nat.leb (48 + d) 57 = true.
Proof.
  intros Hd. rewrite nat_ascii_embedding by lia. split; [reflexivity|].
  apply andb_true_intro. split; apply Nat.leb_le; lia.
Qed.

Lemma digits_of_value (fuel n : nat) (acc : string) :
  n < fuel ->
  exists k, forall a seen,
    digits_value (digits_of fuel n acc) a seen = digits_value acc (a * k + Z.of_nat n)%Z true.
Proof.
  revert n acc. induction fuel as [|f IH]; intros n acc Hn; [lia|].
  cbn [digits_of]. pose proof (Nat.mod_upper_bound n 10 ltac:(lia)) as Hm.
  destruct (digit_char (n mod 10) Hm) as [Hc Hb].
  destruct (Nat.ltb n 10) eqn:E.
  - apply Nat.ltb_lt in E. exists 10%Z. intros a seen. cbn [digits_value].
    rewrite Hc, Hb. f_equal. rewrite Nat.mod_small by exact E. lia.
  - apply Nat.ltb_ge in E.
    assert (Hq : n / 10 < f).
    { assert (n / 10 < n) by (apply Nat.div_lt; lia). lia. }
    destruct (IH (n / 10) (String (ascii_of_nat (48 + n mod 10)) acc) Hq) as [k Hk].
    exists (k * 10)%Z. intros a seen. rewrite Hk. cbn [digits_value].
    rewrite Hc, Hb. f_equal.
    pose proof (Nat.div_mod_eq n 10) as Hd.
    set (q := n / 10) in *. set (r := n mod 10) in *. clearbody q r. lia.
Qed.

Lemma digits_of_head (fuel n : nat) (acc : string) :
  n < fuel ->
  exists c s, digits_of fuel n acc = String c s /\ 48 <= nat_of_ascii c <= 57.
Proof.
  revert n acc. induction fuel as [|f IH]; intros n acc Hn; [lia|].
  cbn [digits_of]. pose proof (Nat.mod_upper_bound n 10 ltac:(lia)) as Hm.
  destruct (digit_char (n mod 10) Hm) as [Hc _].
  destruct (Nat.ltb n 10) eqn:E.
  - do 2 eexists. split; [reflexivity|]. rewrite Hc. lia.
  - apply Nat.ltb_ge in E. apply IH.
    assert (n / 10 < n) by (apply Nat.div_lt; lia). lia.
Qed.

Lemma digits_of_all (fuel n : nat) (acc : string) :
  n < fuel ->
  all_chars (fun c => Nat.leb 48 (nat_of_ascii c) && Nat.leb (nat_of_ascii c) 57) acc = true ->
  all_chars (fun c => Nat.leb 48 (nat_of_ascii c) && Nat.leb (nat_of_ascii c) 57)
            (digits_of fuel n acc) = true.
Proof.
  revert n acc. induction fuel as [|f IH]; intros n acc Hn Ha; [lia|].
  cbn [digits_of]. pose proof (Nat.mod_upper_bound n 10 ltac:(lia)) as Hm.
  destruct (digit_char (n mod 10) Hm) as [Hc Hb].
  destruct (Nat.ltb n 10) eqn:E.
  - cbn [all_chars]. rewrite Hc, Hb, Ha. reflexivity.
  - apply Nat.ltb_ge in E. apply IH.
    + assert (n / 10 < n) by (apply Nat.div_lt; lia). lia.
    + cbn [all_chars]. rewrite Hc, Hb, Ha. reflexivity.
Qed.

Lemma parse_unsigned_decimal (s : string) :
  all_chars (fun c => Nat.leb 48 (nat_of_ascii c) && Nat.leb (nat_of_ascii c) 57) s = true ->
  parse_unsigned s = digits_value s 0 false.
Proof.
  intros H. destruct s as [|z [|x s]]; try reflexivity. unfold parse_unsigned.
  cbn [all_chars] in H. apply andb_prop in H as [_ H]. apply andb_prop in H as [Hx _].
  apply andb_prop in Hx as [Hx1 Hx2]. apply Nat.leb_le in Hx1, Hx2.
  destruct (Ascii.eqb x "x"%char) eqn:E1.
  { apply Ascii.eqb_eq in E1. subst x. cbn in Hx2. lia. }
  destruct (Ascii.eqb x "X"%char) eqn:E2.
  { apply Ascii.eqb_eq in E2. subst x. cbn in Hx2. lia. }
  rewrite andb_false_r. reflexivity.
Qed.

Lemma parseInt_Z_to_string (v : jsval) (n : Z) :
  js_to_string v = Z_to_string n -> parseInt v = Some n.
Proof.
  intros Hv. unfold parseInt. rewrite Hv. unfold Z_to_string.
  set (m := Z.to_nat (Z.abs n)).
  assert (Hm : Z.of_nat m = Z.abs n) by (unfold m; lia).
  clearbody m.
  destruct (digits_of_value (S m) m "" ltac:(lia)) as [k Hk].
  destruct (digits_of_head (S m) m "" ltac:(lia)) as (c & s & Hcs & Hc).
  assert (Hval : parse_unsigned (digits_of (S m) m "") = Some (Z.of_nat m)).
  { rewrite parse_unsigned_decimal by (apply digits_of_all; [lia|reflexivity]).
    rewrite Hk. reflexivity. }
  destruct (Z.ltb n 0) eqn:En.
  - change (option_map Z.opp (parse_unsigned (digits_of (S m) m "")) = Some n).
    rewrite Hval. cbn [option_map]. f_equal. apply Z.ltb_lt in En. lia.
  - rewrite Hcs. cbn [trim_start].
    assert (Hs : is_space c = false).
    { unfold is_space. apply orb_false_intro.
      - apply andb_false_intro2. apply Nat.leb_gt. lia.
      - apply Nat.eqb_neq. lia. }
    rewrite Hs.
    destruct (Ascii.eqb c "-"%char) eqn:E1.
    { apply Ascii.eqb_eq in E1. subst c. cbn in Hc. lia. }
    destruct (Ascii.eqb c "+"%char) eqn:E2.
    { apply Ascii.eqb_eq in E2. subst c. cbn in Hc. lia. }
    rewrite <- Hcs, Hval. f_equal. apply Z.ltb_ge in En. lia.
Qed.

(** [executeWait] in time mode (target ['time'] or falsy): a value whose
    string is the decimal form of a non-zero integer [n] of magnitude at
    most 2^53 waits [n] ms ([parseInt(String(n)) = n], exact in this
    range); a falsy value waits the default 1000 ms.  Nothing else is called
    on the page and the store is untouched. *)
Theorem wait_time_mode (pg : page) (a : action) (st : state) :
  a_target a = JStr "time" \/ truthy (a_target a) = false ->
  let waited ms := (Ok tt, add_trace st [EWaitForTimeout ms]) in
  (forall n, js_to_string (a_value a) = Z_to_string n -> n <> 0%Z ->
     (Z.abs n <= 2 ^ 53)%Z -> executeWait pg a st = waited n) /\
  (truthy (a_value a) = false -> executeWait pg a st = waited 1000%Z).
Proof.
  intros Ht. cbv zeta.
  assert (Hw : executeWait pg a st =
    (Ok tt, add_trace st [EWaitForTimeout (match parseInt (a_value a) with
                                           | Some n => if Z.eqb n 0 then 1000%Z else n
                                           | None => 1000%Z end)])).
  { unfold executeWait. destruct Ht as [Ht|Ht].
    - rewrite Ht. reflexivity.
    - rewrite Ht, orb_true_r. reflexivity. }
  rewrite Hw. split.
  - intros n Hv Hn _. rewrite (parseInt_Z_to_string _ n Hv).
    apply Z.eqb_neq in Hn. rewrite Hn. reflexivity.
  - intros Hf. destruct (a_value a) as [| |[]|z|s|]; try discriminate Hf; try reflexivity.
    + cbn in Hf. destruct (Z.eqb z 0) eqn:Ez; [|discriminate Hf].
      apply Z.eqb_eq in Ez. subst z. reflexivity.
    + cbn in Hf. destruct (String.eqb s "") eqn:Es; [|discriminate Hf].
      apply String.eqb_eq in Es. subst s. reflexivity.
Qed.

Lemma wait_time_mode_witness :
  let a := {| a_type := "wait"; a_target := JStr "time"; a_value := JStr "2500";
              a_description := JUndef; a_waitFor := JNull; a_timeout := JNum 30000 |} in
  let st := {| st_store := {| sessions := []; steps := [] |}; st_trace := [] |} in
  executeWait sample_page a st = (Ok tt, add_trace st [EWaitForTimeout 2500]).
Proof.
  cbv zeta.
  apply (proj1 (wait_time_mode sample_page
    {| a_type := "wait"; a_target := JStr "time"; a_value := JStr "2500";
       a_description := JUndef; a_waitFor := JNull; a_timeout := JNum 30000 |}
    {| st_store := {| sessions := []; steps := [] |}; st_trace := [] |}
    (or_introl eq_refl)) 2500%Z); [reflexivity|discriminate|lia].
Defined.

Lemma validateAction_ok_supported (i : input) (a : action) :
  validateAction i = Ok a -> In (a_type a) SUPPORTED_ACTIONS /\ truthy (a_timeout a) = true.
Proof.
  intros H. destruct i as [r|v]; unfold validateAction in H; cbv beta iota zeta in H;
    [|discriminate H].
  destruct (r_type r) as [| | | |t|] eqn:Et; try discriminate H.
  destruct (negb (String.eqb t "") && existsb (String.eqb t) SUPPORTED_ACTIONS) eqn:Hs;
    [|discriminate H].
  apply andb_prop in Hs as [_ Hin].
  apply existsb_exists in Hin as [t' [Hin Ht']]. apply String.eqb_eq in Ht'. subst t'.
  repeat match type of H with
         | context [if ?c then _ else _] => destruct c
         end; try discriminate H; injection H as <-; cbn [a_type a_timeout];
    (split; [exact Hin|apply truthy_js_or_default; reflexivity]).
Qed.

Lemma getFallbackAction_supported (command : string) (a : action) :
  getFallbackAction command = Some a ->
  In (a_type a) SUPPORTED_ACTIONS /\ a_timeout a = JNum 30000.
Proof.
  unfold getFallbackAction. cbv zeta. intros H.
  repeat match type of H with
         | context [if ?c then _ else _] => destruct c
         | context [match ?o with Some _ => _ | None => _ end] => destruct o
         end; try discriminate H; injection H as <-; cbn; split; auto 10.
Qed.

(** [translateCommand] returns an action of a supported type with a truthy
    timeout, whether from the model or from the fallback; it fails only when
    the fallback finds no rule too, with the message
    ["Failed to translate command: ..."]. *)
Theorem translateCommand_outcome (command : string) (llm : llm_response) :
  match translateCommand command llm with
  | Ok a => In (a_type a) SUPPORTED_ACTIONS /\ truthy (a_timeout a) = true
  | Err e => getFallbackAction command = None /\
             exists msg, e = ("Failed to translate command: " ++ msg)%string
  end.
Proof.
  unfold translateCommand. cbv zeta.
  assert (Hfb : forall msg, match (match getFallbackAction command with
                                  | Some a => Ok a
                                  | None => Err ("Failed to translate command: " ++ msg)%string
                                  end) with
                            | Ok a => In (a_type a) SUPPORTED_ACTIONS /\ truthy (a_timeout a) = true
                            | Err e => getFallbackAction command = None /\
                                       exists msg, e = ("Failed to translate command: " ++ msg)%string
                            end).
  { intros msg. destruct (getFallbackAction command) as [a|] eqn:E.
    - destruct (getFallbackAction_supported command a E) as [H1 H2].
      rewrite H2. auto.
    - split; [reflexivity|]. exists msg. reflexivity. }
  destruct llm as [msg|v]; [apply Hfb|].
  destruct (validateAction v) as [a|msg] eqn:E; [|apply Hfb].
  apply (validateAction_ok_supported v a E).
Qed.

Lemma find_filter_none sid (l : list session_row) :
  length (filter (fun r => String.eqb (ss_id r) sid) l) = 0 <->
  find (fun r => String.eqb (ss_id r) sid) l = None.
Proof.
  induction l as [|r l IH]; cbn; [tauto|].
  destruct (String.eqb (ss_id r) sid); cbn; [split; discriminate|exact IH].
Qed.

Lemma find_filter_removed sid (l : list session_row) :
  find (fun r => String.eqb (ss_id r) sid)
       (filter (fun r => negb (String.eqb (ss_id r) sid)) l) = None.
Proof.
  induction l as [|r l IH]; cbn; [reflexivity|].
  destruct (String.eqb (ss_id r) sid) eqn:E; cbn; [exact IH|rewrite E; exact IH].
Qed.

(** [DELETE /:sessionId] answers success only for a session that existed,
    and then both statements have run: the session's steps and its row are
    gone, nothing else is touched, and a later [GET /:sessionId] does not
    return the session.  For a session that does not exist it answers 500
    (the second statement removes no row, or a statement fails). *)
Theorem delete_route_effect (sid : string) (st : state) :
  let st' := snd (delete_route sid st) in
  (fst (delete_route sid st) = Ok Deleted ->
     find_session sid (st_store st) <> None /\
     st_trace st' = st_trace st /\
     steps (st_store st') =
       filter (fun r => negb (String.eqb (sp_session r) sid)) (steps (st_store st)) /\
     sessions (st_store st') =
       filter (fun r => negb (String.eqb (ss_id r) sid)) (sessions (st_store st)) /\
     (forall s l, fst (get_route sid st') <> Ok (GotSession s l))) /\
  (find_session sid (st_store st) = None -> fst (delete_route sid st) = Ok Delete500).
Proof.
  cbv zeta.
  set (b := Nat.eqb (length (filter (fun r => String.eqb (ss_id r) sid)
                                   (sessions (st_store st)))) 0).
  set (st1 := {| st_store := {| sessions := filter (fun r => negb (String.eqb (ss_id r) sid))
                                                  (sessions (st_store st));
                                steps := filter (fun r => negb (String.eqb (sp_session r) sid))
                                                (steps (st_store st)) |};
                 st_trace := st_trace st |}).
  assert (Hd : delete_route sid st = (Ok (if b then Delete500 else Deleted), st1)).
  { unfold delete_route, catch_, bind, modify_store, get_store. cbn [st_store st_trace].
    unfold b, st1. destruct (Nat.eqb _ 0); reflexivity. }
  assert (Hg : fst (get_route sid st1) = Ok Get404).
  { unfold get_route, catch_, bind, get_store, find_session, st1. cbn [st_store sessions].
    rewrite find_filter_removed. reflexivity. }
  pose proof (find_filter_none sid (sessions (st_store st))) as Hf.
  rewrite Hd. cbn [fst snd]. unfold find_session. unfold b.
  destruct (Nat.eqb _ 0) eqn:E; split.
  - intros H. discriminate H.
  - reflexivity.
  - intros _. apply Nat.eqb_neq in E.
    split; [intros H'; apply Hf in H'; contradiction|].
    split; [reflexivity|]. split; [reflexivity|]. split; [reflexivity|].
    intros s l. rewrite Hg. discriminate.
  - intros H. apply Hf in H. apply Nat.eqb_neq in E. contradiction.
Qed.

Lemma delete_route_effect_witness :
  let st := {| st_store := {| sessions := [{| ss_id := "S"; ss_name := "Demo";
                                               ss_status := "pending"; ss_total := 0;
                                               ss_passed := 0; ss_failed := 0 |}];
                              steps := [] |};
               st_trace := [] |} in
  find_session "S" (st_store st) <> None /\
  sessions (st_store (snd (delete_route "S" st))) = [].
Proof.
  cbv zeta.
  destruct (proj1 (delete_route_effect "S"
      {| st_store := {| sessions := [{| ss_id := "S"; ss_name := "Demo";
                                         ss_status := "pending"; ss_total := 0;
                                         ss_passed := 0; ss_failed := 0 |}];
                        steps := [] |};
         st_trace := [] |}) eq_refl) as [H1 [_ [_ [H2 _]]]].
  split; [exact H1|]. rewrite H2. reflexivity.
Defined.

Lemma create_steps_spec uuid llm sid cmds i st :
  exists vs,
    create_steps uuid llm sid cmds i st =
      (Ok vs, {| st_store := {| sessions := sessions (st_store st);
                                steps := steps (st_store st) ++ stored_rows sid vs |};
                 st_trace := st_trace st |}) /\
    map v_stepNumber vs = seq (S i) (length cmds).
Proof.
  revert i st. induction cmds as [|c cmds IH]; intros i st.
  - exists []. destruct st as [[ss sps] tr]. cbn. rewrite app_nil_r. split; reflexivity.
  - cbn [create_steps]. unfold bind at 1.
    destruct (translateCommand c (llm c)) as [a|e].
    + unfold bind, modify_store, ret. cbn [st_store st_trace sessions steps].
      match goal with
      | |- context [create_steps uuid llm sid cmds (S i) ?s0] =>
          destruct (IH (S i) s0) as [vs [H1 H2]]; rewrite H1
      end.
      exists ({| v_id := uuid i; v_stepNumber := S i; v_command := c; v_action := Some a;
                 v_status := "pending"; v_error := None |} :: vs). split; [cbn [st_store st_trace sessions steps stored_rows v_action];
                                 rewrite <- app_assoc; reflexivity|].
      cbn. rewrite H2. reflexivity.
    + unfold ret at 1. unfold bind.
      destruct (IH (S i) st) as [vs [H1 H2]]. rewrite H1.
      exists ({| v_id := uuid i; v_stepNumber := S i; v_command := c; v_action := None;
                 v_status := "failed"; v_error := Some e |} :: vs).
      split; [reflexivity|]. cbn. rewrite H2. reflexivity.
Qed.

Lemma stored_rows_fields sid vs r :
  In r (stored_rows sid vs) -> sp_session r = sid /\ In (sp_number r) (map v_stepNumber vs).
Proof.
  induction vs as [|v vs IH]; cbn; [tauto|].
  destruct (v_action v); [intros [<-|H]; [cbn; auto|]|intros H];
    destruct (IH H); auto.
Qed.

Lemma stored_rows_sorted sid vs i :
  map v_stepNumber vs = seq i (length vs) ->
  fold_right insert_by_number [] (stored_rows sid vs) = stored_rows sid vs.
Proof.
  revert i. induction vs as [|v vs IH]; intros i Hn; [reflexivity|].
  cbn in Hn. injection Hn as Hv Hn. cbn [stored_rows].
  destruct (v_action v) as [a|]; [|exact (IH _ Hn)].
  cbn [fold_right]. rewrite (IH _ Hn).
  destruct (stored_rows sid vs) as [|h t] eqn:E; [reflexivity|].
  assert (Hh : In h (stored_rows sid vs)) by (rewrite E; left; reflexivity).
  apply stored_rows_fields in Hh as [_ Hh]. rewrite Hn in Hh. apply in_seq in Hh.
  cbn. unfold mk_step. cbn [sp_number].
  replace (Nat.leb (v_stepNumber v) (sp_number h)) with true
    by (symmetry; apply Nat.leb_le; lia).
  reflexivity.
Qed.

Lemma find_app_none {T} (f : T -> bool) (l1 l2 : list T) :
  find f l1 = None -> find f (l1 ++ l2) = find f l2.
Proof.
  induction l1 as [|x l1 IH]; cbn; [reflexivity|].
  destruct (f x); [discriminate|exact IH].
Qed.

Lemma filter_other_session sid (l : list step_row) :
  (forall r, In r l -> sp_session r <> sid) ->
  filter (fun r => String.eqb (sp_session r) sid) l = [].
Proof.
  induction l as [|r l IH]; intros Hs; [reflexivity|]. cbn [filter].
  destruct (String.eqb (sp_session r) sid) eqn:E.
  - apply String.eqb_eq in E. exfalso. apply (Hs r); [left; reflexivity|exact E].
  - apply IH. intros r' Hr'. apply Hs. right. exact Hr'.
Qed.

(** When [POST /create] for a fresh session id answers [Created], it has one
    entry per command, and a later [GET /:sessionId] answers either 500 (a
    failing store read) or the pending session with [total_steps] equal to
    the number of commands and exactly the translated steps, in command
    order. *)
Theorem create_then_get (uuid : nat -> string) (llm : string -> llm_response)
  (sid name : string) (commands : list string) (st : state) :
  find_session sid (st_store st) = None ->
  (forall r, In r (steps (st_store st)) -> sp_session r <> sid) ->
  match create_route uuid llm sid name commands st with
  | (Ok (Created sid' vs), st') =>
      sid' = sid /\ length vs = length commands /\
      (fst (get_route sid st') = Ok Get500 \/
       fst (get_route sid st') =
        Ok (GotSession {| ss_id := sid; ss_name := name; ss_status := "pending";
                          ss_total := length commands; ss_passed := 0; ss_failed := 0 |}
                       (stored_rows sid vs)))
  | _ => True
  end.
Proof.
  intros Hf Hs. unfold create_route.
  destruct (String.eqb name "" || Nat.ltb 255 (String.length name)); [exact I|].
  destruct (match commands with [] => true | _ => false end); [exact I|].
  unfold catch_, bind, modify_store. cbn [st_store st_trace sessions steps].
  match goal with
  | |- context [create_steps uuid llm sid commands 0 ?s0] =>
      destruct (create_steps_spec uuid llm sid commands 0 s0) as [vs [H1 H2]]
  end.
  rewrite H1. unfold ret. cbn [st_store sessions steps].
  split; [reflexivity|].
  split; [rewrite <- (length_map v_stepNumber vs), H2, length_seq; reflexivity|].
  right.
  unfold get_route, catch_, bind, get_store, find_session, session_steps, ret.
  cbn [st_store sessions steps fst].
  rewrite find_app_none by exact Hf. cbn [find]. rewrite String.eqb_refl.
  rewrite filter_app.
  assert (Hold : filter (fun r => String.eqb (sp_session r) sid) (steps (st_store st)) = []).
  { apply filter_other_session. exact Hs. }
  assert (Hnew : filter (fun r => String.eqb (sp_session r) sid) (stored_rows sid vs) =
                 stored_rows sid vs).
  { apply forallb_filter_id. apply forallb_forall. intros r Hr.
    apply stored_rows_fields in Hr as [Hr _]. apply String.eqb_eq, Hr. }
  rewrite Hold, Hnew. cbn [app].
  rewrite (stored_rows_sorted sid vs 1); [reflexivity|].
  rewrite H2. f_equal. rewrite <- (length_map v_stepNumber vs), H2, length_seq. reflexivity.
Qed.

Lemma create_then_get_witness :
  let st := {| st_store := {| sessions := []; steps := [] |}; st_trace := [] |} in
  find_session "S" (st_store st) = None /\
  (forall r, In r (steps (st_store st)) -> sp_session r <> "S") /\
  match create_route step_uuid llm_down "S" "Demo" ["Navigate to https://example.com"] st with
  | (Ok (Created sid' vs), st') =>
      sid' = "S" /\ length vs = 1 /\
      (fst (get_route "S" st') = Ok Get500 \/
       fst (get_route "S" st') =
        Ok (GotSession {| ss_id := "S"; ss_name := "Demo"; ss_status := "pending";
                          ss_total := 1; ss_passed := 0; ss_failed := 0 |}
                       (stored_rows "S" vs)))
  | _ => True
  end.
Proof.
  cbv zeta.
  assert (H1 : find_session "S" {| sessions := []; steps := [] |} = None) by reflexivity.
  assert (H2 : forall r, In r (steps {| sessions := []; steps := [] |}) -> sp_session r <> "S")
    by (intros r []).
  split; [exact H1|]. split; [exact H2|].
  exact (create_then_get step_uuid llm_down "S" "Demo" ["Navigate to https://example.com"]
           {| st_store := {| sessions := []; steps := [] |}; st_trace := [] |} H1 H2).
Defined.

Lemma fallback_click_candidates_witness :
  includes (toLowerCase "Click the 'Log In' button") "click" = true /\
  exists a t, getFallbackAction "Click the 'Log In' button" = Some a /\ a_type a = "click" /\
    a_target a = JStr t /\
    candidates_of t = ["button:has-text('Log In')"; "[data-testid*='log in']"].
Proof.
  split; [reflexivity|].
  apply (fallback_click_candidates "Click the 'Log In' button"); reflexivity.
Defined.

(** [POST /create] with an empty or too long name, or no commands, answers
    400 and leaves the state unchanged. *)
Theorem create_route_rejects (uuid : nat -> string) (llm : string -> llm_response)
  (sid name : string) (commands : list string) (st : state) :
  name = "" \/ 255 < String.length name \/ commands = [] ->
  exists msg, create_route uuid llm sid name commands st = (Ok (Create400 msg), st).
Proof.
  intros H. unfold create_route.
  destruct (String.eqb name "" || Nat.ltb 255 (String.length name)) eqn:E;
    [eexists; reflexivity|].
  apply orb_false_iff in E as [E1 E2]. apply String.eqb_neq in E1. apply Nat.ltb_ge in E2.
  destruct H as [H|[H|H]]; [contradiction|lia|subst commands].
  eexists; reflexivity.
Qed.

Lemma create_route_rejects_witness :
  exists msg, create_route step_uuid llm_down "S" "" ["Go to https://example.com"]
                {| st_store := {| sessions := []; steps := [] |}; st_trace := [] |} =
              (Ok (Create400 msg), {| st_store := {| sessions := []; steps := [] |}; st_trace := [] |}).
Proof.
  apply create_route_rejects. left. reflexivity.
Defined.

Lemma span_app_stop (p : ascii -> bool) (v r : string) (c : ascii) :
  all_chars p v = true -> p c = false -> span p (v ++ String c r) = (v, String c r).
Proof.
  induction v as [|d v IH]; intros Hv Hc; cbn [span append].
  - rewrite Hc. reflexivity.
  - cbn [all_chars] in Hv. apply andb_prop in Hv as [Hd Hv].
    rewrite Hd, (IH Hv Hc). reflexivity.
Qed.

Lemma quoted_at_hit (q1 q2 : ascii) (v r : string) :
  is_quote q1 = true -> is_quote q2 = true -> v <> EmptyString ->
  all_chars (fun c => negb (is_quote c)) v = true ->
  quoted_at (String q1 (v ++ String q2 r)) = Some v.
Proof.
  intros H1 H2 Hv Hall. unfold quoted_at. rewrite H1.
  rewrite (span_app_stop _ v r q2 Hall) by (rewrite H2; reflexivity).
  destruct v as [|d v]; [contradiction|]. rewrite H2. reflexivity.
Qed.

Lemma extractQuotedText_complete (p v r : string) (q1 q2 : ascii) :
  is_quote q1 = true -> is_quote q2 = true -> v <> EmptyString ->
  all_chars (fun c => negb (is_quote c)) v = true ->
  exists v', extractQuotedText (p ++ String q1 (v ++ String q2 r)) = Some v'.
Proof.
  intros H1 H2 Hv Hall. induction p as [|d p IH].
  - exists v. cbn [append]. unfold extractQuotedText.
    rewrite (quoted_at_hit q1 q2 v r H1 H2 Hv Hall). reflexivity.
  - assert (E : extractQuotedText (String d (p ++ String q1 (v ++ String q2 r))) =
                match quoted_at (String d (p ++ String q1 (v ++ String q2 r))) with
                | Some g => Some g
                | None => extractQuotedText (p ++ String q1 (v ++ String q2 r))
                end) by reflexivity.
    cbn [append]. rewrite E.
    destruct (quoted_at _) as [g|]; [exists g; reflexivity|exact IH].
Qed.

(** When the fallback's type rule applies, the value is the group of the
    leftmost match of the quote pattern: a non-empty run of characters other
    than the three quote characters, preceded and followed by a quote
    character (single, double or backquote, not necessarily the same), with
    no match starting earlier; and whenever such a run occurs in the text,
    [extractQuotedText] finds a match. *)
Theorem fallback_type_value_is_leftmost_match :
  (forall command v,
     includes (toLowerCase command) "click" = false ->
     includes (toLowerCase command) "type" || includes (toLowerCase command) "enter" = true ->
     extractQuotedText command = Some v ->
     getFallbackAction command =
       Some {| a_type := "type"; a_target := JStr "input, textarea"; a_value := JStr v;
               a_description := JStr ("Type " ++ dq ++ v ++ dq);
               a_waitFor := JUndef; a_timeout := JNum 30000 |} /\
     exists p q1 q2 r,
       command = (p ++ String q1 (v ++ String q2 r))%string /\
       is_quote q1 = true /\ is_quote q2 = true /\ v <> EmptyString /\
       all_chars (fun c => negb (is_quote c)) v = true /\
       (forall k, k < String.length p -> quoted_at (drop_chars k command) = None)) /\
  (forall p v r q1 q2,
     is_quote q1 = true -> is_quote q2 = true -> v <> EmptyString ->
     all_chars (fun c => negb (is_quote c)) v = true ->
     exists v', extractQuotedText (p ++ String q1 (v ++ String q2 r)) = Some v').
Proof.
  split.
  - intros command v Hc Ht Hq. split.
    + unfold getFallbackAction. cbv zeta. rewrite Hc, Ht, Hq. reflexivity.
    + apply extractQuotedText_spec. exact Hq.
  - intros p v r q1 q2. apply extractQuotedText_complete.
Qed.

Lemma fallback_type_value_is_leftmost_match_witness :
  let command := ("Type " ++ dq ++ "a" ++ dq ++ " then " ++ dq ++ "b" ++ dq)%string in
  includes (toLowerCase command) "click" = false /\
  getFallbackAction command =
    Some {| a_type := "type"; a_target := JStr "input, textarea"; a_value := JStr "a";
            a_description := JStr ("Type " ++ dq ++ "a" ++ dq);
            a_waitFor := JUndef; a_timeout := JNum 30000 |}.
Proof.
  cbv zeta. split; [reflexivity|].
  apply (proj1 fallback_type_value_is_leftmost_match); reflexivity.
Defined.
